(** * Resync of one cluster against the graph store

    A shallow embedding of [pkg/handlers]' [resyncCluster], [getEdgeUID] and
    [valueToString], with the store, the chunked mutation executor and the
    other collaborators of package [dbconnector] taken as an abstract
    environment.  Go maps are [gmap]s, slices are lists, [interface{}] is the
    inductive [Value], and a call that can dereference a nil result is an
    explicit [Panicked] outcome. *)

From Stdlib Require Import ZArith Ascii String DecimalString DecimalZ DecimalPos.
From stdpp Require Import gmap strings list fin_maps.

#[local] Open Scope string_scope.
#[local] Set Warnings "-register-all,-clear-no-such-hyp".

(** ** Go values *)

(** The dynamic values ([interface{}]) that reach this code: what a record of
    a query result holds in a column, and what a property map holds.  [VNil]
    is the nil interface, [VSeq] is [[]interface{}], [VNode] is [*rg2.Node]
    (of which only [Properties] is read), [VBool] stands for the types that
    the type switches below do not name. *)
Inductive Value : Type :=
| VNil
| VInt64 (n : Z)
| VInt (n : Z)
| VString (s : string)
| VBool (b : bool)
| VSeq (l : list Value)
| VNode (props : gmap string Value).

(** A Go error value, by its message. *)
Definition error : Type := string.

(** [m[k]] on a [map[string]interface{}]: the nil interface for a missing key. *)
Definition goIndex (m : gmap string Value) (k : string) : Value :=
  default VNil (m !! k).

(** [strconv.FormatInt(i, 10)]: the decimal digits, with a leading minus sign
    for a negative number. *)
Definition FormatInt10 (i : Z) : string :=
  NilZero.string_of_int (Z.to_int i).

(** [strconv.Itoa(i)] is [FormatInt(int64(i), 10)]. *)
Definition Itoa (i : Z) : string := FormatInt10 i.

(** Reading a decimal rendering back ([strconv.ParseInt(s, 10, 64)] without
    the range check). *)
Definition ParseInt10 (s : string) : option Z :=
  Z.of_int <$> NilZero.int_of_string s.

(** [reflect.DeepEqual] on these values: same dynamic type and, recursively,
    the same contents. *)
Fixpoint DeepEqual (x y : Value) {struct x} : bool :=
  match x, y with
  | VNil, VNil => true
  | VInt64 a, VInt64 b => bool_decide (a = b)
  | VInt a, VInt b => bool_decide (a = b)
  | VString a, VString b => bool_decide (a = b)
  | VBool a, VBool b => bool_decide (a = b)
  | VSeq l1, VSeq l2 =>
      (fix seqEqual (l1 l2 : list Value) {struct l1} : bool :=
         match l1, l2 with
         | [], [] => true
         | a :: l1', b :: l2' => DeepEqual a b && seqEqual l1' l2'
         | _, _ => false
         end) l1 l2
  | VNode m1, VNode m2 =>
      bool_decide (dom m1 = dom m2) &&
      map_fold (fun k a acc =>
                  acc && match m2 !! k with
                         | Some b => DeepEqual a b
                         | None => false
                         end) true m1
  | _, _ => false
  end.

(** ** [valueToString] (lines 286-301) *)

(** What [glog] receives from this file, at levels Warning and Error (the
    Info lines are not modelled).  Each constructor is one call site. *)
Inductive LogEntry : Type :=
| ErrExistingResources (clusterName : string)                 (* line 36 *)
| WarnDuplicateRecords (clusterName : string) (uids : nat)    (* line 63 *)
| ErrDeletingDuplicates (dupeUID : string) (e : error)        (* line 68 *)
| WarnEncodingProperties (e : error)                          (* line 89 *)
| WarnExistingEdges (clusterName : string) (e : error)        (* line 165 *)
| WarnDeletingDuplicateEdges (clusterName : string) (e : error) (* line 196 *)
| ErrDuplicateEdgesInPayload (clusterName : string)           (* line 220 *)
| WarnExpectedEdges (clusterName : string) (expected received : Z) (* line 232 *)
| WarnUnableToParse (v : Value).                              (* line 297 *)

(** The function with the warning of its last branch made explicit. *)
Definition valueToStringLog (value : Value) : string * list LogEntry :=
  match value with
  | VInt64 typedVal => (FormatInt10 typedVal, [])
  | VInt typedVal => (Itoa typedVal, [])
  | typedVal =>
      match typedVal with
      | VString s => (s, [])
      | _ => ("", [WarnUnableToParse typedVal])
      end
  end.

Definition valueToString (value : Value) : string :=
  fst (valueToStringLog value).

(** ** [getEdgeUID] (lines 25-27) *)

(** [fmt.Sprintf("%s-%s->%s", sourceUID, edgeType, destUID)]. *)
Definition getEdgeUID (sourceUID edgeType destUID : string) : string :=
  sourceUID ++ "-" ++ edgeType ++ "->" ++ destUID.

(** ** The types of package [dbconnector] and of the graph client *)

Record Resource : Type := mkResource {
  UID : string;
  Properties : gmap string Value
}.

Record Edge : Type := mkEdge {
  SourceUID : string;
  EdgeType : string;
  DestUID : string
}.

#[global] Instance Edge_eq_dec : EqDecision Edge.
Proof. solve_decision. Defined.

(** [*rg2.Node], by its [Properties]. *)
Abbreviation Node := (gmap string Value).

(** [*rg2.QueryResult]: the records that [Next]/[Record] run through, each a
    row of columns, and the statistics line.  [GetByIndex] answers nil past
    the last column. *)
Record QueryResult : Type := mkQueryResult {
  records : list (list Value);
  RelationshipsDeleted : Z
}.

Definition GetByIndex (record : list Value) (index : nat) : Value :=
  default VNil (record !! index).

(** What [db.Store.Query] returns: a result pointer, which may be nil, and an
    error. *)
Definition QueryReturn : Type := option QueryResult * option error.

Record ChunkedOperationResult : Type := mkChunked {
  ResourceErrors : gmap string error;
  ConnectionError : option error;
  SuccessfulResources : Z;
  EdgesAdded : Z;
  EdgesDeleted : Z
}.

Record SyncError : Type := mkSyncError {
  ResourceUID : string;
  Message : string
}.

Record SyncResponse : Type := mkSyncResponse {
  TotalAdded : Z;
  TotalUpdated : Z;
  TotalDeleted : Z;
  TotalEdgesAdded : Z;
  TotalEdgesDeleted : Z;
  AddErrors : list SyncError;
  UpdateErrors : list SyncError;
  DeleteErrors : list SyncError;
  AddEdgeErrors : list SyncError;
  DeleteEdgeErrors : list SyncError
}.

(** The zero value of the named result [stats]. *)
Definition zeroSyncResponse : SyncResponse :=
  mkSyncResponse 0 0 0 0 0 [] [] [] [] [].

Definition setTotalAdded (n : Z) (s : SyncResponse) : SyncResponse :=
  mkSyncResponse n (TotalUpdated s) (TotalDeleted s) (TotalEdgesAdded s)
    (TotalEdgesDeleted s) (AddErrors s) (UpdateErrors s) (DeleteErrors s)
    (AddEdgeErrors s) (DeleteEdgeErrors s).
Definition setTotalUpdated (n : Z) (s : SyncResponse) : SyncResponse :=
  mkSyncResponse (TotalAdded s) n (TotalDeleted s) (TotalEdgesAdded s)
    (TotalEdgesDeleted s) (AddErrors s) (UpdateErrors s) (DeleteErrors s)
    (AddEdgeErrors s) (DeleteEdgeErrors s).
Definition setTotalDeleted (n : Z) (s : SyncResponse) : SyncResponse :=
  mkSyncResponse (TotalAdded s) (TotalUpdated s) n (TotalEdgesAdded s)
    (TotalEdgesDeleted s) (AddErrors s) (UpdateErrors s) (DeleteErrors s)
    (AddEdgeErrors s) (DeleteEdgeErrors s).
Definition setTotalEdgesAdded (n : Z) (s : SyncResponse) : SyncResponse :=
  mkSyncResponse (TotalAdded s) (TotalUpdated s) (TotalDeleted s) n
    (TotalEdgesDeleted s) (AddErrors s) (UpdateErrors s) (DeleteErrors s)
    (AddEdgeErrors s) (DeleteEdgeErrors s).
Definition setTotalEdgesDeleted (n : Z) (s : SyncResponse) : SyncResponse :=
  mkSyncResponse (TotalAdded s) (TotalUpdated s) (TotalDeleted s)
    (TotalEdgesAdded s) n (AddErrors s) (UpdateErrors s) (DeleteErrors s)
    (AddEdgeErrors s) (DeleteEdgeErrors s).
Definition setAddErrors (l : list SyncError) (s : SyncResponse) : SyncResponse :=
  mkSyncResponse (TotalAdded s) (TotalUpdated s) (TotalDeleted s)
    (TotalEdgesAdded s) (TotalEdgesDeleted s) l (UpdateErrors s)
    (DeleteErrors s) (AddEdgeErrors s) (DeleteEdgeErrors s).
Definition setUpdateErrors (l : list SyncError) (s : SyncResponse) : SyncResponse :=
  mkSyncResponse (TotalAdded s) (TotalUpdated s) (TotalDeleted s)
    (TotalEdgesAdded s) (TotalEdgesDeleted s) (AddErrors s) l
    (DeleteErrors s) (AddEdgeErrors s) (DeleteEdgeErrors s).
Definition setDeleteErrors (l : list SyncError) (s : SyncResponse) : SyncResponse :=
  mkSyncResponse (TotalAdded s) (TotalUpdated s) (TotalDeleted s)
    (TotalEdgesAdded s) (TotalEdgesDeleted s) (AddErrors s) (UpdateErrors s)
    l (AddEdgeErrors s) (DeleteEdgeErrors s).
Definition setAddEdgeErrors (l : list SyncError) (s : SyncResponse) : SyncResponse :=
  mkSyncResponse (TotalAdded s) (TotalUpdated s) (TotalDeleted s)
    (TotalEdgesAdded s) (TotalEdgesDeleted s) (AddErrors s) (UpdateErrors s)
    (DeleteErrors s) l (DeleteEdgeErrors s).
Definition setDeleteEdgeErrors (l : list SyncError) (s : SyncResponse) : SyncResponse :=
  mkSyncResponse (TotalAdded s) (TotalUpdated s) (TotalDeleted s)
    (TotalEdgesAdded s) (TotalEdgesDeleted s) (AddErrors s) (UpdateErrors s)
    (DeleteErrors s) (AddEdgeErrors s) l.

(** ** The environment of [resyncCluster] *)

(** The store behind [db.Store] and the chunked operations, as a machine over
    a state [S]: every call answers and moves the state.  [computeIntraEdges]
    is the package's own counting helper, read here only for log lines. *)
Record Store (S : Type) : Type := mkStore {
  Query : string -> S -> QueryReturn * S;
  ChunkedInsert : list Resource -> string -> S -> ChunkedOperationResult * S;
  ChunkedUpdate : list Resource -> S -> ChunkedOperationResult * S;
  ChunkedDelete : list string -> S -> ChunkedOperationResult * S;
  ChunkedInsertEdge : list Edge -> string -> S -> ChunkedOperationResult * S;
  ChunkedDeleteEdge : list Edge -> string -> S -> ChunkedOperationResult * S;
  computeIntraEdges : string -> S -> Z * S
}.
Arguments Query {S}.
Arguments ChunkedInsert {S}.
Arguments ChunkedUpdate {S}.
Arguments ChunkedDelete {S}.
Arguments ChunkedInsertEdge {S}.
Arguments ChunkedDeleteEdge {S}.
Arguments computeIntraEdges {S}.

(** The pure collaborators: [db.SanitizeQuery] at a format and its one
    argument, the [EncodeProperties] method of a resource, and [processSyncErrors]. *)
Record Deps : Type := mkDeps {
  SanitizeQuery : string -> string -> string;
  EncodeProperties : Resource -> gmap string Value * option error;
  processSyncErrors : gmap string error -> string -> list SyncError
}.

(** The order in which a [for ... range] statement visits a map: some
    enumeration of its entries, each once. *)
Record MapOrder : Type := mkMapOrder {
  mapRange : forall A : Type, gmap string A -> list (string * A);
  mapRange_perm : forall (A : Type) (m : gmap string A),
    mapRange A m ≡ₚ map_to_list m
}.
Arguments mapRange _ {A} _.

(** The calls that leave the function, with their arguments and the answer
    each one got. *)
Inductive Call : Type :=
| CQuery (q : string) (answer : QueryReturn)
| CChunkedInsert (resources : list Resource) (clusterName : string)
    (answer : ChunkedOperationResult)
| CChunkedUpdate (resources : list Resource) (answer : ChunkedOperationResult)
| CChunkedDelete (uids : list string) (answer : ChunkedOperationResult)
| CChunkedInsertEdge (edges : list Edge) (clusterName : string)
    (answer : ChunkedOperationResult)
| CChunkedDeleteEdge (edges : list Edge) (clusterName : string)
    (answer : ChunkedOperationResult)
| CComputeIntraEdges (clusterName : string) (answer : Z).

(** ** The query strings *)

Definition existingResourcesFormat : string :=
  "MATCH (n {cluster: '%s'}) RETURN n".

Definition deleteDuplicatesFormat : string :=
  "MATCH (n {_uid:'%s'}) DELETE n".

(** Line 162: [fmt.Sprintf] of the format at [clusterName, clusterName]. *)
Definition existingEdgesQuery (clusterName : string) : string :=
  "MATCH (s {cluster:'" ++ clusterName ++ "'})-[r]->(d {cluster:'" ++ clusterName
  ++ "'}) WHERE (r._interCluster <> true) OR (r._interCluster IS NULL) RETURN s._uid, type(r), d._uid".

(** Line 194: [fmt.Sprintf] of the format at [clusterName, clusterName]. *)
Definition deleteDuplicateEdgesQuery (clusterName : string) : string :=
  "MATCH (s {cluster:'" ++ clusterName ++ "'})-[r]->(d {cluster:'" ++ clusterName
  ++ "'}) WHERE (r._interCluster <> true) OR (r._interCluster IS NULL) WITH s as source, d as dest, TYPE(r) as edge, COLLECT (r) AS edges WHERE size(edges) >1 UNWIND edges[1..] AS dupedges DELETE dupedges".

(** ** Runs of the function *)

(** The world a run moves through: the store, the calls made so far and the
    log written so far. *)
Record World (S : Type) : Type := mkWorld {
  w_store : S;
  w_calls : list Call;
  w_logs : list LogEntry
}.
Arguments mkWorld {S}.
Arguments w_store {S}.
Arguments w_calls {S}.
Arguments w_logs {S}.

(** A run returns, or panics on a nil dereference. *)
Inductive Outcome (A : Type) : Type :=
| Returned (a : A)
| Panicked.
Arguments Returned {A}.
Arguments Panicked {A}.

Definition M (S A : Type) : Type := World S -> Outcome A * World S.

#[global] Instance M_ret {S : Type} : MRet (M S) :=
  fun A a w => (Returned a, w).

#[global] Instance M_bind {S : Type} : MBind (M S) :=
  fun A B k c w =>
    match c w with
    | (Returned a, w') => k a w'
    | (Panicked, w') => (Panicked, w')
    end.

Definition panic {S A : Type} : M S A := fun w => (Panicked, w).

Section Run.
Context {S : Type} (store : Store S) (deps : Deps) (ord : MapOrder).

Definition glog (e : LogEntry) : M S unit :=
  fun w => (Returned tt, mkWorld (w_store w) (w_calls w) (w_logs w ++ [e])).

Definition glogs (es : list LogEntry) : M S unit :=
  fun w => (Returned tt, mkWorld (w_store w) (w_calls w) (w_logs w ++ es)).

(** One call to the store: the answer, the new state, the call recorded. *)
Definition call {A : Type} (c : A -> Call) (op : S -> A * S) : M S A :=
  fun w =>
    let '(a, s') := op (w_store w) in
    (Returned a, mkWorld s' (w_calls w ++ [c a]) (w_logs w)).

(** [if cond { body }] and [if x != nil { body }] around a statement. *)
Definition when (cond : bool) (body : M S unit) : M S unit :=
  if cond then body else mret tt.

Definition whenSome {A : Type} (x : option A) (body : A -> M S unit)
    : M S unit :=
  match x with
  | Some a => body a
  | None => mret tt
  end.

(** [result.Next()] / [result.Record()] until exhausted: the records of a
    result, and a nil pointer dereference on a nil result. *)
Definition Next (result : option QueryResult) : M S (list (list Value)) :=
  match result with
  | Some r => mret (records r)
  | None => panic
  end.

(** [dupEdgedeleted.RelationshipsDeleted()], an argument of a log call and
    evaluated whatever the verbosity. *)
Definition relationshipsDeleted (result : option QueryResult) : M S Z :=
  match result with
  | Some r => mret (RelationshipsDeleted r)
  | None => panic
  end.

(** *** Lines 41-59: the existing resources by UID, and the duplicated UIDs *)

Definition scanRecord (acc : gmap string Node * gmap string Z)
    (record : list Value) : gmap string Node * gmap string Z :=
  let '(existingResources, duplicatedResources) := acc in
  match GetByIndex record 0 with
  | VNode rgNode =>
      match goIndex rgNode "_uid" with
      | VString existingResourceUID =>
          match existingResources !! existingResourceUID with
          | Some _ =>
              match duplicatedResources !! existingResourceUID with
              | None =>
                  (existingResources,
                   <[existingResourceUID := 1%Z]> duplicatedResources)
              | Some dupeCount =>
                  (existingResources,
                   <[existingResourceUID := (dupeCount + 1)%Z]> duplicatedResources)
              end
          | None =>
              (<[existingResourceUID := rgNode]> existingResources,
               duplicatedResources)
          end
      | _ => acc
      end
  | _ => acc
  end.

Definition scanRecords (rs : list (list Value))
    : gmap string Node * gmap string Z :=
  foldl scanRecord (∅, ∅) rs.

(** *** Lines 65-72: one deletion per duplicated UID *)

Fixpoint deleteDuplicates (dupes : list (string * Z))
    (existingResources : gmap string Node) : M S (gmap string Node) :=
  match dupes with
  | [] => mret existingResources
  | (dupeUID, dupeCount) :: rest =>
      '(_, delError) ←
        call (CQuery (SanitizeQuery deps deleteDuplicatesFormat dupeUID))
             (Query store (SanitizeQuery deps deleteDuplicatesFormat dupeUID));
      whenSome delError (fun e => glog (ErrDeletingDuplicates dupeUID e));;
      deleteDuplicates rest (delete dupeUID existingResources)
  end.

(** *** Lines 92-110: the scan of the encoded properties *)

Definition propertyDiffers (newResource : Resource) (existingResource : Node)
    (key : string) (value : Value) : bool :=
  let interfaceTypeTrue := match value with VSeq _ => true | _ => false end in
  let existingInterfaceTypeTrue :=
    match goIndex existingResource key with VSeq _ => true | _ => false end in
  let existingInterface := goIndex existingResource key in
  let isInterface := interfaceTypeTrue && existingInterfaceTypeTrue in
  let stringValue := if isInterface then "" else valueToString value in
  let existingProperty :=
    if isInterface then "" else valueToString (goIndex existingResource key) in
  (isInterface &&
     negb (DeepEqual (goIndex (Properties newResource) key) existingInterface))
  || negb (bool_decide (existingProperty = stringValue)).

(** The loop over the encoded properties, in the order of the range
    statement; it stops at the first property that differs. *)
Fixpoint scanProperties (newResource : Resource) (existingResource : Node)
    (props : list (string * Value)) (resourcesToUpdate : list Resource)
    : list Resource :=
  match props with
  | [] => resourcesToUpdate
  | (key, value) :: rest =>
      if propertyDiffers newResource existingResource key value
      then resourcesToUpdate ++ [newResource]
      else scanProperties newResource existingResource rest resourcesToUpdate
  end.

(** *** Lines 76-116: the incoming resources against the existing ones *)

Record ResourceDiff : Type := mkResourceDiff {
  rd_existing : gmap string Node;
  rd_toAdd : list Resource;
  rd_toUpdate : list Resource;
  rd_logs : list LogEntry
}.

Definition diffResource (d : ResourceDiff) (newResource : Resource)
    : ResourceDiff :=
  match rd_existing d !! UID newResource with
  | None =>
      mkResourceDiff (rd_existing d) (rd_toAdd d ++ [newResource])
        (rd_toUpdate d) (rd_logs d)
  | Some existingResource =>
      let '(newEncodedProperties, encodeError) :=
        EncodeProperties deps newResource in
      match encodeError with
      | Some e =>
          mkResourceDiff (delete (UID newResource) (rd_existing d))
            (rd_toAdd d) (rd_toUpdate d ++ [newResource])
            (rd_logs d ++ [WarnEncodingProperties e])
      | None =>
          mkResourceDiff (delete (UID newResource) (rd_existing d))
            (rd_toAdd d)
            (scanProperties newResource existingResource
               (mapRange ord newEncodedProperties) (rd_toUpdate d))
            (rd_logs d)
      end
  end.

Definition diffResources (existingResources : gmap string Node)
    (resources : list Resource) : ResourceDiff :=
  foldl diffResource (mkResourceDiff existingResources [] [] []) resources.

(** *** Lines 141-144: the UIDs left over *)

(** [resource.Properties["_uid"].(string)]: the assertion panics on a value
    that is not a string. *)
Definition assertString (v : Value) : option string :=
  match v with
  | VString s => Some s
  | _ => None
  end.

Fixpoint appendDeleteUIDS (rest : list (string * Node))
    (deleteUIDS : list string) : M S (list string) :=
  match rest with
  | [] => mret deleteUIDS
  | (_, resource) :: rest' =>
      match assertString (goIndex resource "_uid") with
      | Some uid => appendDeleteUIDS rest' (deleteUIDS ++ [uid])
      | None => panic
      end
  end.

(** *** Lines 175-188: the existing edges by key *)

Definition scanEdgeRecord (acc : gmap string Edge * Z) (e : list Value)
    : gmap string Edge * Z :=
  let '(existingEdges, dupCount) := acc in
  let key := getEdgeUID (valueToString (GetByIndex e 0))
               (valueToString (GetByIndex e 1))
               (valueToString (GetByIndex e 2)) in
  match existingEdges !! key with
  | None =>
      (<[key := mkEdge (valueToString (GetByIndex e 0))
                  (valueToString (GetByIndex e 1))
                  (valueToString (GetByIndex e 2))]> existingEdges,
       dupCount)
  | Some _ => (existingEdges, (dupCount + 1)%Z)
  end.

(** *** Lines 208-218: the incoming edges against the existing ones *)

Record EdgeDiff : Type := mkEdgeDiff {
  ed_verify : gmap string bool;
  ed_existing : gmap string Edge;
  ed_toAdd : list Edge
}.

Definition diffEdge (d : EdgeDiff) (e : Edge) : EdgeDiff :=
  let verifyEdges :=
    <[getEdgeUID (SourceUID e) (EdgeType e) (DestUID e) := true]> (ed_verify d) in
  match ed_existing d !! getEdgeUID (SourceUID e) (EdgeType e) (DestUID e) with
  | Some _ =>
      mkEdgeDiff verifyEdges
        (delete (getEdgeUID (SourceUID e) (EdgeType e) (DestUID e)) (ed_existing d))
        (ed_toAdd d)
  | None => mkEdgeDiff verifyEdges (ed_existing d) (ed_toAdd d ++ [e])
  end.

Definition diffEdges (existingEdges : gmap string Edge) (edges : list Edge)
    : EdgeDiff :=
  foldl diffEdge (mkEdgeDiff ∅ existingEdges []) edges.

(** Lines 225-228. *)
Definition collectEdgesToDelete (existingEdges : gmap string Edge)
    : list Edge :=
  snd <$> mapRange ord existingEdges.

(** *** Lines 123-127, 133-137, 147-151, 239-243 and 261-265

    The block that follows each chunked operation: a connection error
    becomes the function's error, and only otherwise are the item errors,
    when there are any, converted and stored by [setErrors]. *)
Definition afterChunked (resp : ChunkedOperationResult)
    (setErrors : list SyncError -> SyncResponse -> SyncResponse)
    (verb : string) (stats : SyncResponse) (err : option error)
    : SyncResponse * option error :=
  match ConnectionError resp with
  | Some e => (stats, Some e)
  | None =>
      if bool_decide (size (ResourceErrors resp) ≠ 0)
      then (setErrors (processSyncErrors deps (ResourceErrors resp) verb) stats, err)
      else (stats, err)
  end.

(** *** [resyncCluster] (lines 29-284) *)

(** The local variables of the function when it returns. *)
Record Locals : Type := mkLocals {
  l_result : option QueryResult;
  l_error : option error;
  l_scanned : gmap string Node;            (* existingResources, line 60 *)
  l_duplicatedResources : gmap string Z;
  l_baseline : gmap string Node;           (* existingResources, line 74 *)
  l_resourcesToAdd : list Resource;
  l_resourcesToUpdate : list Resource;
  l_existingResources : gmap string Node;  (* existingResources, line 117 *)
  l_deleteUIDS : list string;
  l_insertResponse : ChunkedOperationResult;
  l_updateResponse : ChunkedOperationResult;
  l_deleteResponse : ChunkedOperationResult;
  l_currEdges : option QueryResult;
  l_edgesError : option error;
  l_edgeBaseline : gmap string Edge;       (* existingEdges, line 205 *)
  l_dupCount : Z;
  l_dupEdgedeleted : option QueryResult;
  l_delEdgesError : option error;
  l_verifyEdges : gmap string bool;
  l_edgesToAdd : list Edge;
  l_existingEdges : gmap string Edge;      (* existingEdges, line 222 *)
  l_edgesToDelete : list Edge;
  l_insertEdgeResponse : ChunkedOperationResult;
  l_deleteEdgeResponse : ChunkedOperationResult;
  l_stats : SyncResponse;
  l_err : option error
}.

Definition resyncClusterLocals (clusterName : string)
    (resources : list Resource) (edges : list Edge) : M S Locals :=
  let stats := zeroSyncResponse in
  let err : option error := None in
  '(result, error) ←
    call (CQuery (SanitizeQuery deps existingResourcesFormat clusterName))
         (Query store (SanitizeQuery deps existingResourcesFormat clusterName));
  whenSome error (fun _ => glog (ErrExistingResources clusterName));;
  let err := match error with Some e => Some e | None => err end in
  rs ← Next result;
  let scanned := scanRecords rs in
  let duplicatedResources := snd scanned in
  baseline ←
    (if bool_decide (0 < size duplicatedResources)
     then glog (WarnDuplicateRecords clusterName (size duplicatedResources));;
          deleteDuplicates (mapRange ord duplicatedResources) (fst scanned)
     else mret (fst scanned));
  let d := diffResources baseline resources in
  glogs (rd_logs d);;
  (* INSERT Resources *)
  insertResponse ←
    call (CChunkedInsert (rd_toAdd d) clusterName)
         (ChunkedInsert store (rd_toAdd d) clusterName);
  let stats := setTotalAdded (SuccessfulResources insertResponse) stats in
  let '(stats, err) :=
    afterChunked insertResponse setAddErrors "inserted" stats err in
  (* UPDATE Resources *)
  updateResponse ←
    call (CChunkedUpdate (rd_toUpdate d)) (ChunkedUpdate store (rd_toUpdate d));
  let stats := setTotalUpdated (SuccessfulResources updateResponse) stats in
  let '(stats, err) :=
    afterChunked updateResponse setUpdateErrors "updated" stats err in
  (* DELETE Resources *)
  deleteUIDS ← appendDeleteUIDS (mapRange ord (rd_existing d)) [];
  deleteResponse ←
    call (CChunkedDelete deleteUIDS) (ChunkedDelete store deleteUIDS);
  let stats := setTotalDeleted (SuccessfulResources deleteResponse) stats in
  let '(stats, err) :=
    afterChunked deleteResponse setDeleteErrors "deleted" stats err in
  (* RE-SYNC Edges *)
  _ ← call (CComputeIntraEdges clusterName) (computeIntraEdges store clusterName);
  '(currEdges, edgesError) ←
    call (CQuery (existingEdgesQuery clusterName))
         (Query store (existingEdgesQuery clusterName));
  whenSome edgesError (fun e => glog (WarnExistingEdges clusterName e));;
  let err := match edgesError with Some e => Some e | None => err end in
  scannedEdges ←
    match edgesError with
    | None => es ← Next currEdges; mret (foldl scanEdgeRecord (∅, 0%Z) es)
    | Some _ => mret (∅, 0%Z)
    end;
  let existingEdges := fst scannedEdges in
  '(dupEdgedeleted, delEdgesError) ←
    call (CQuery (deleteDuplicateEdgesQuery clusterName))
         (Query store (deleteDuplicateEdgesQuery clusterName));
  err ←
    match delEdgesError with
    | Some e => glog (WarnDeletingDuplicateEdges clusterName e);; mret (Some e)
    | None => _ ← relationshipsDeleted dupEdgedeleted; mret err
    end;
  _ ← call (CComputeIntraEdges clusterName) (computeIntraEdges store clusterName);
  let existingEdgesMapLength := size existingEdges in
  let ed := diffEdges existingEdges edges in
  when (bool_decide (size (ed_verify ed) ≠ length edges))
    (glog (ErrDuplicateEdgesInPayload clusterName));;
  let edgesToDelete := collectEdgesToDelete (ed_existing ed) in
  let expectedEdgesAfterProcessing :=
    (Z.of_nat existingEdgesMapLength + Z.of_nat (length (ed_toAdd ed))
     - Z.of_nat (length edgesToDelete))%Z in
  when (bool_decide (expectedEdgesAfterProcessing ≠ Z.of_nat (length edges)))
    (glog (WarnExpectedEdges clusterName expectedEdgesAfterProcessing
             (Z.of_nat (length edges))));;
  (* INSERT Edges *)
  insertEdgeResponse ←
    call (CChunkedInsertEdge (ed_toAdd ed) clusterName)
         (ChunkedInsertEdge store (ed_toAdd ed) clusterName);
  let stats := setTotalEdgesAdded (SuccessfulResources insertEdgeResponse) stats in
  let '(stats, err) :=
    afterChunked insertEdgeResponse setAddEdgeErrors "inserted by edge" stats err in
  when (bool_decide (Z.of_nat (length (ed_toAdd ed)) ≠ EdgesAdded insertEdgeResponse))
    (_ ← call (CComputeIntraEdges clusterName)
              (computeIntraEdges store clusterName); mret tt);;
  (* DELETE Edges *)
  deleteEdgeResponse ←
    call (CChunkedDeleteEdge edgesToDelete clusterName)
         (ChunkedDeleteEdge store edgesToDelete clusterName);
  let stats := setTotalEdgesDeleted (SuccessfulResources deleteEdgeResponse) stats in
  let '(stats, err) :=
    afterChunked deleteEdgeResponse setDeleteEdgeErrors "removed by edge" stats err in
  when (bool_decide (Z.of_nat (length edgesToDelete) ≠ EdgesDeleted deleteEdgeResponse))
    (_ ← call (CComputeIntraEdges clusterName)
              (computeIntraEdges store clusterName); mret tt);;
  mret (mkLocals result error (fst scanned) duplicatedResources baseline
          (rd_toAdd d) (rd_toUpdate d) (rd_existing d) deleteUIDS
          insertResponse updateResponse deleteResponse
          currEdges edgesError existingEdges (snd scannedEdges)
          dupEdgedeleted delEdgesError
          (ed_verify ed) (ed_toAdd ed) (ed_existing ed) edgesToDelete
          insertEdgeResponse deleteEdgeResponse stats err).

(** The function itself: [return stats, err]. *)
Definition resyncCluster (clusterName : string)
    (resources : list Resource) (edges : list Edge)
    : M S (SyncResponse * option error) :=
  l ← resyncClusterLocals clusterName resources edges;
  mret (l_stats l, l_err l).
End Run.

(** ** The vocabulary of the statements *)

(** The identity key of an edge, as line 212 computes it. *)
Definition edgeKey (e : Edge) : string :=
  getEdgeUID (SourceUID e) (EdgeType e) (DestUID e).

(** The node and UID that line 45-46 read off a record, when they succeed. *)
Definition recordNode (record : list Value) : option (string * Node) :=
  match GetByIndex record 0 with
  | VNode rgNode =>
      match goIndex rgNode "_uid" with
      | VString uid => Some (uid, rgNode)
      | _ => None
      end
  | _ => None
  end.

(** How many records of a result carry the UID. *)
Definition occurrences (uid : string) (rs : list (list Value)) : nat :=
  length (filter (fun r => fst <$> recordNode r = Some uid) rs).

(** The last error of a sequence of stages, if any failed. *)
Definition lastError (errs : list (option error)) : option error :=
  foldl (fun acc e => match e with Some x => Some x | None => acc end) None errs.

(** The store follows the convention of the client: a query that reports no
    error hands back a result. *)
Definition conventional {S : Type} (store : Store S) : Prop :=
  ∀ (q : string) (s : S), snd (fst (Query store q s)) = None →
                          is_Some (fst (fst (Query store q s))).

(** The chunked mutation operations among the calls, and the query strings
    among them. *)
Definition isMutation (c : Call) : bool :=
  match c with
  | CChunkedInsert _ _ _ | CChunkedUpdate _ _ | CChunkedDelete _ _
  | CChunkedInsertEdge _ _ _ | CChunkedDeleteEdge _ _ _ => true
  | _ => false
  end.

Definition queriesOf (calls : list Call) : list string :=
  omap (fun c => match c with CQuery q _ => Some q | _ => None end) calls.

(** The five chunked operations of a cycle, as called and as answered, and
    the five error lists of the response next to the answers and verbs they
    are filled from. *)
Definition mutationCalls (clusterName : string) (l : Locals) : list Call :=
  [CChunkedInsert (l_resourcesToAdd l) clusterName (l_insertResponse l);
   CChunkedUpdate (l_resourcesToUpdate l) (l_updateResponse l);
   CChunkedDelete (l_deleteUIDS l) (l_deleteResponse l);
   CChunkedInsertEdge (l_edgesToAdd l) clusterName (l_insertEdgeResponse l);
   CChunkedDeleteEdge (l_edgesToDelete l) clusterName (l_deleteEdgeResponse l)].

Definition errorLists (stats : SyncResponse) : list (list SyncError) :=
  [AddErrors stats; UpdateErrors stats; DeleteErrors stats;
   AddEdgeErrors stats; DeleteEdgeErrors stats].

Definition totals (stats : SyncResponse) : list Z :=
  [TotalAdded stats; TotalUpdated stats; TotalDeleted stats;
   TotalEdgesAdded stats; TotalEdgesDeleted stats].

Definition answersAndVerbs (l : Locals)
    : list (ChunkedOperationResult * string) :=
  [(l_insertResponse l, "inserted"); (l_updateResponse l, "updated");
   (l_deleteResponse l, "deleted");
   (l_insertEdgeResponse l, "inserted by edge");
   (l_deleteEdgeResponse l, "removed by edge")].

Section Vocabulary.
Context (deps : Deps) (ord : MapOrder).

(** Some property of the list differs from the stored copy. *)
Definition propertiesDiffer (newResource : Resource) (existingResource : Node)
    (props : list (string * Value)) : bool :=
  existsb (fun kv => propertyDiffers newResource existingResource (fst kv) (snd kv))
    props.

(** The decision of lines 86-111 for a resource found in the store. *)
Definition needsUpdate (newResource : Resource) (existingResource : Node)
    : bool :=
  match EncodeProperties deps newResource with
  | (_, Some _) => true
  | (newEncodedProperties, None) =>
      propertiesDiffer newResource existingResource
        (mapRange ord newEncodedProperties)
  end.

(** The warning of line 89 for a resource found in the store. *)
Definition encodeWarning (newResource : Resource) : list LogEntry :=
  match EncodeProperties deps newResource with
  | (_, Some e) => [WarnEncodingProperties e]
  | (_, None) => []
  end.

(** The three lists of the resource loop, head first. *)
Fixpoint addsOf (existing : gmap string Node) (rs : list Resource)
    : list Resource :=
  match rs with
  | [] => []
  | r :: rest =>
      match existing !! UID r with
      | None => r :: addsOf existing rest
      | Some _ => addsOf (delete (UID r) existing) rest
      end
  end.

Fixpoint updatesOf (existing : gmap string Node) (rs : list Resource)
    : list Resource :=
  match rs with
  | [] => []
  | r :: rest =>
      match existing !! UID r with
      | None => updatesOf existing rest
      | Some n =>
          (if needsUpdate r n then [r] else [])
          ++ updatesOf (delete (UID r) existing) rest
      end
  end.

Fixpoint warningsOf (existing : gmap string Node) (rs : list Resource)
    : list LogEntry :=
  match rs with
  | [] => []
  | r :: rest =>
      match existing !! UID r with
      | None => warningsOf existing rest
      | Some n => encodeWarning r ++ warningsOf (delete (UID r) existing) rest
      end
  end.

(** The incoming resource is found in the map and has to be written. *)
Definition foundAndDiffers (existing : gmap string Node) (r : Resource)
    : bool :=
  match existing !! UID r with
  | Some n => needsUpdate r n
  | None => false
  end.

(** The calls and the log lines of the loop of lines 65-72, given the UIDs
    in the order of the range statement and the answer to each query. *)
Definition dupCalls (uids : list string) (answers : list QueryReturn)
    : list Call :=
  zip_with (fun u a => CQuery (SanitizeQuery deps deleteDuplicatesFormat u) a)
    uids answers.

Definition dupLogs (uids : list string) (answers : list QueryReturn)
    : list LogEntry :=
  concat (zip_with (fun u a => match snd a with
                               | Some e => [ErrDeletingDuplicates u e]
                               | None => []
                               end) uids answers).

(** The item errors that a chunked operation leaves in the response. *)
Definition itemErrors (resp : ChunkedOperationResult) (verb : string)
    : list SyncError :=
  match ConnectionError resp with
  | Some _ => []
  | None =>
      if bool_decide (size (ResourceErrors resp) ≠ 0)
      then processSyncErrors deps (ResourceErrors resp) verb
      else []
  end.

(** The edges the edge loop appends, head first. *)
Fixpoint edgeAddsOf (existing : gmap string Edge) (es : list Edge)
    : list Edge :=
  match es with
  | [] => []
  | e :: rest =>
      match existing !! edgeKey e with
      | None => e :: edgeAddsOf existing rest
      | Some _ => edgeAddsOf (delete (edgeKey e) existing) rest
      end
  end.
End Vocabulary.

(** ** A concrete environment

    A store that answers from a script, whatever its state, and the simplest
    collaborators; the examples below run the function in it. *)

Record Script : Type := mkScript {
  s_query : string -> QueryReturn;
  s_insert : list Resource -> ChunkedOperationResult;
  s_update : list Resource -> ChunkedOperationResult;
  s_delete : list string -> ChunkedOperationResult;
  s_insertEdge : list Edge -> ChunkedOperationResult;
  s_deleteEdge : list Edge -> ChunkedOperationResult
}.

Definition scriptedStore (sc : Script) : Store unit :=
  mkStore unit
    (fun q s => (s_query sc q, s))
    (fun rs _ s => (s_insert sc rs, s))
    (fun rs s => (s_update sc rs, s))
    (fun uids s => (s_delete sc uids, s))
    (fun es _ s => (s_insertEdge sc es, s))
    (fun es _ s => (s_deleteEdge sc es, s))
    (fun _ s => (0%Z, s)).

(** Every item of a chunked operation succeeds. *)
Definition allSucceed {A : Type} (edgesAdded edgesDeleted : bool) (items : list A)
    : ChunkedOperationResult :=
  mkChunked ∅ None (Z.of_nat (length items))
    (if edgesAdded then Z.of_nat (length items) else 0%Z)
    (if edgesDeleted then Z.of_nat (length items) else 0%Z).

(** The store is unreachable during a chunked operation. *)
Definition connectionLost {A : Type} (items : list A) : ChunkedOperationResult :=
  mkChunked ∅ (Some "connection refused") 0 0 0.

Definition emptyResult : QueryResult := mkQueryResult [] 0.

(** A healthy store whose two reading queries answer [nodes] and [rows]. *)
Definition healthyScript (resourcesQuery edgesQuery : string)
    (nodes rows : list (list Value)) : Script :=
  mkScript
    (fun q =>
       if bool_decide (q = resourcesQuery) then (Some (mkQueryResult nodes 0), None)
       else if bool_decide (q = edgesQuery) then (Some (mkQueryResult rows 0), None)
       else (Some emptyResult, None))
    (allSucceed false false) (allSucceed false false) (allSucceed false false)
    (allSucceed true false) (allSucceed false true).

(** A sanitizer: the argument with its quotes escaped, put at the first
    [%s] of the format. *)
Fixpoint escapeQuotes (s : string) : string :=
  match s with
  | EmptyString => EmptyString
  | String c rest =>
      if bool_decide (c = "'"%char)
      then String "\"%char (String c (escapeQuotes rest))
      else String c (escapeQuotes rest)
  end.

Fixpoint sprintf1 (format arg : string) : string :=
  match format with
  | String "%"%char (String "s"%char rest) => arg ++ rest
  | String c rest => String c (sprintf1 rest arg)
  | EmptyString => EmptyString
  end.

Definition demoDeps : Deps :=
  mkDeps
    (fun format arg => sprintf1 format (escapeQuotes arg))
    (fun r => (Properties r, None))
    (fun errs _ => (fun kv => mkSyncError (fst kv) (snd kv)) <$> map_to_list errs).

Definition sortedOrder : MapOrder :=
  mkMapOrder (fun A m => map_to_list m) (fun A m => reflexivity _).

Definition world0 : World unit := mkWorld tt [] [].

Definition node (uid : string) (props : list (string * Value)) : list Value :=
  [VNode (<["_uid" := VString uid]> (list_to_map props))].

Definition resource (uid : string) (props : list (string * Value)) : Resource :=
  mkResource uid (<["_uid" := VString uid]> (list_to_map props)).

Definition row (s t d : string) : list Value := [VString s; VString t; VString d].

Definition demoRun (sc : Script) (clusterName : string)
    (resources : list Resource) (edges : list Edge)
    : Outcome Locals * World unit :=
  resyncClusterLocals (scriptedStore sc) demoDeps sortedOrder
    clusterName resources edges world0.

Definition demoHealthy (clusterName : string) (nodes rows : list (list Value))
    : Script :=
  healthyScript (SanitizeQuery demoDeps existingResourcesFormat clusterName)
    (existingEdgesQuery clusterName) nodes rows.

(** The store loses its connection while the resources are inserted, two
    items having failed before. *)
Definition lostOnInsert (clusterName : string) : Script :=
  mkScript
    (s_query (demoHealthy clusterName [] []))
    (fun _ => mkChunked {[ "N1" := "timeout" ; "N2" := "timeout" ]}
                (Some "connection refused") 0 0 0)
    (allSucceed false false) (allSucceed false false)
    (allSucceed true false) (allSucceed false true).

(** The first query fails the way the client reports a failure: no result
    and an error. *)
Definition failingQuery : Script :=
  mkScript (fun _ => (None, Some "connection refused"))
    (allSucceed false false) (allSucceed false false) (allSucceed false false)
    (allSucceed true false) (allSucceed false true).

(** A cluster name that closes the quoted literal of a query. *)
Definition quotingName : string := "c'}) DETACH DELETE s //".

(** A cycle with one resource to add, one to update and one to delete,
    against a store that loses its connection on the insert. *)
Definition lostRun : Outcome Locals * World unit :=
  resyncClusterLocals
    (scriptedStore
       (mkScript
          (s_query (demoHealthy "c1"
                      [node "U" [("k", VString "old")]; node "D" []] []))
          (s_insert (lostOnInsert "c1")) (allSucceed false false)
          (allSucceed false false) (allSucceed true false)
          (allSucceed false true)))
    demoDeps sortedOrder "c1"
    [resource "N1" []; resource "U" [("k", VString "new")]] [] world0.


(** The store holds the UID ["X"] three times and ["Y"] once. *)
Definition tripledNodes : list (list Value) :=
  [node "X" []; node "Y" []; node "X" []; node "X" []].

(** The same store when every query but the two reading ones fails. *)
Definition failingDeletions (clusterName : string)
    (nodes rows : list (list Value)) : Script :=
  mkScript
    (fun q =>
       if bool_decide (q = SanitizeQuery demoDeps existingResourcesFormat clusterName)
       then (Some (mkQueryResult nodes 0), None)
       else if bool_decide (q = existingEdgesQuery clusterName)
            then (Some (mkQueryResult rows 0), None)
            else (None, Some "timeout"))
    (allSucceed false false) (allSucceed false false) (allSucceed false false)
    (allSucceed true false) (allSucceed false true).

(** A snapshot that carries the UID ["X"] twice, against a store that holds
    it once with another value. *)
Definition repeatedUidRun : Outcome Locals * World unit :=
  demoRun (demoHealthy "c1" [node "X" [("k", VString "old")]] []) "c1"
    [resource "X" [("k", VString "new")]; resource "X" [("k", VString "new")]]
    [].



(** One scalar property changed, and nothing changed. *)
Definition statusRun : Outcome Locals * World unit :=
  demoRun (demoHealthy "c1"
             [node "P" [("status", VString "Ready")];
              node "Q" [("status", VString "Ready"); ("replicas", VInt64 3)]]
             []) "c1"
    [resource "P" [("status", VString "NotReady")];
     resource "Q" [("status", VString "Ready"); ("replicas", VInt64 3)]]
    [].

Definition AB : Edge := mkEdge "A" "owns" "B".
Definition AC : Edge := mkEdge "A" "owns" "C".

(** The two edge examples of the specification, and a payload that carries
    an edge of the baseline twice. *)
Definition edgeAddRun : Outcome Locals * World unit :=
  demoRun (demoHealthy "c1" [] [row "A" "owns" "B"]) "c1" [] [AB; AC].

Definition edgeDeleteRun : Outcome Locals * World unit :=
  demoRun (demoHealthy "c1" [] [row "A" "owns" "B"; row "A" "owns" "C"]) "c1"
    [] [AB].

Definition repeatedEdgeRun : Outcome Locals * World unit :=
  demoRun (demoHealthy "c1" [] [row "A" "owns" "B"]) "c1" [] [AB; AB].

(** A snapshot of distinct UIDs: one new, one changed, one unchanged, and a
    stored resource that the snapshot no longer carries. *)
Definition mixedNodes : list (list Value) :=
  [node "U" [("k", VString "old")]; node "S" [("k", VString "same")];
   node "D" []].

Definition mixedSnapshot : list Resource :=
  [resource "N" []; resource "U" [("k", VString "new")];
   resource "S" [("k", VString "same")]].

(** The source line of the call that wrote a log entry. *)
Definition logLine (e : LogEntry) : nat :=
  match e with
  | ErrExistingResources _ => 36
  | WarnDuplicateRecords _ _ => 63
  | ErrDeletingDuplicates _ _ => 68
  | WarnEncodingProperties _ => 89
  | WarnExistingEdges _ _ => 165
  | WarnDeletingDuplicateEdges _ _ => 196
  | ErrDuplicateEdgesInPayload _ => 220
  | WarnExpectedEdges _ _ _ => 232
  | WarnUnableToParse _ => 297
  end.

(** The characters of a string, and the edges whose key can be read back:
    no [>] in the source UID or in the edge type, and no [-] in the edge
    type. *)
Definition hasChar (c : ascii) (s : string) : Prop :=
  c ∈ list_ascii_of_string s.

Definition readableKey (e : Edge) : Prop :=
  ¬ hasChar ">" (SourceUID e) ∧ ¬ hasChar ">" (EdgeType e)
  ∧ ¬ hasChar "-" (EdgeType e).

(** ** [healthProbes.go] *)

(** What a handler has sent through its [http.ResponseWriter]: the status,
    once the header is written, and the body.  The headers themselves are
    not modelled. *)
Record ResponseWriter : Type := mkResponse {
  rw_status : option nat;
  rw_body : string
}.

Definition newline : string := String "010" EmptyString.

(** [w.WriteHeader(code)]: the first call fixes the status. *)
Definition WriteHeader (code : nat) (w : ResponseWriter) : ResponseWriter :=
  match rw_status w with
  | Some _ => w
  | None => mkResponse (Some code) (rw_body w)
  end.

(** [w.Write(data)], which [fmt.Fprint(w, ...)] calls: a write before any
    [WriteHeader] sends the header with status 200. *)
Definition Write (data : string) (w : ResponseWriter) : ResponseWriter :=
  mkResponse (rw_status (WriteHeader 200 w)) (rw_body w ++ data).

(** [http.Error(w, error, code)]: the header with [code], then the message
    and a newline. *)
Definition httpError (error : string) (code : nat) (w : ResponseWriter)
    : ResponseWriter :=
  Write (error ++ newline) (WriteHeader code w).

(** [LivenessProbe] (lines 21-24). *)
Definition LivenessProbe (w : ResponseWriter) : ResponseWriter :=
  Write "OK" w.

(** [ReadinessProbe] (lines 27-40), given what
    [dbconnector.CheckDataConnection] answers. *)
Definition ReadinessProbe (CheckDataConnection : bool * option error)
    (w : ResponseWriter) : ResponseWriter :=
  let '(connAlive, connError) := CheckDataConnection in
  if bool_decide (connError ≠ None) || negb connAlive
  then httpError "Unable to reach Redis." 503 w
  else Write "OK" w.

(** A store whose queries all fail but the first. *)
Definition failingEdgeQuery (clusterName : string)
    (nodes : list (list Value)) : Script :=
  mkScript
    (fun q =>
       if bool_decide (q = SanitizeQuery demoDeps existingResourcesFormat clusterName)
       then (Some (mkQueryResult nodes 0), None)
       else (None, Some "timeout"))
    (allSucceed false false) (allSucceed false false) (allSucceed false false)
    (allSucceed true false) (allSucceed false true).

(** A resource whose replica count is 3, and a stored node that has it as
    the string ["4"]. *)
Definition scaled : Resource := resource "Q" [("replicas", VInt64 3)].

Definition storedScaled : gmap string Value :=
  <["_uid" := VString "Q"]> {[ "replicas" := VString "4" ]}.

(** * Properties *)

#[local] Open Scope list_scope.

(** ** Lists *)

Lemma filter_ext_elem {A : Type} (P Q : A → Prop)
    `{!∀ x, Decision (P x)} `{!∀ x, Decision (Q x)} (l : list A) :
  (∀ x, x ∈ l → P x ↔ Q x) → filter P l = filter Q l.
Proof.
  induction l as [|x l IH]; intros Hext; [done|].
  assert (filter P l = filter Q l) as Hl.
  { apply IH. intros y Hy. apply Hext. by apply elem_of_cons; right. }
  assert (P x ↔ Q x) as Hx by (apply Hext, elem_of_cons; by left).
  destruct (decide (P x)) as [HP|HP].
  - rewrite !filter_cons_True by tauto. by rewrite Hl.
  - rewrite !filter_cons_False by tauto. done.
Qed.

(** ** Maps consumed by a loop *)

Section Consumed.
Context {A B : Type} (key : A → string).
Implicit Types (m : gmap string B) (l : list A).

Lemma lookup_consumed m l (k : string) :
  foldl (fun m x => delete (key x) m) m l !! k =
  if decide (k ∈ key <$> l) then None else m !! k.
Proof.
  revert m. induction l as [|x l IH]; intros m.
  - by cbn.
  - cbn [foldl]. rewrite IH, fmap_cons, lookup_delete.
    repeat case_decide; try done; set_solver.
Qed.

(** What is left of a map from which the keys of a list were deleted: the
    entries whose key the list does not carry. *)
Lemma consumed_filter m l :
  foldl (fun m x => delete (key x) m) m l =
  filter (fun kv => fst kv ∉ key <$> l) m.
Proof.
  apply map_eq. intros k. rewrite lookup_consumed.
  destruct (m !! k) as [e|] eqn:He.
  - case_decide as Hin.
    + symmetry. apply map_lookup_filter_None. right. intros e' He' Hn.
      by apply Hn.
    + symmetry. apply map_lookup_filter_Some. by cbn.
  - symmetry. case_decide; apply map_lookup_filter_None; by left.
Qed.
End Consumed.

(** ** The edge loop *)

Section EdgeLoop.
Implicit Types (existing : gmap string Edge) (es : list Edge) (e : Edge).

Lemma diffEdge_eq (d : EdgeDiff) e :
  diffEdge d e =
  mkEdgeDiff (<[edgeKey e := true]> (ed_verify d))
    (delete (edgeKey e) (ed_existing d))
    (ed_toAdd d ++ match ed_existing d !! edgeKey e with
                   | None => [e]
                   | Some _ => []
                   end).
Proof.
  unfold diffEdge. fold (edgeKey e).
  destruct (ed_existing d !! edgeKey e) eqn:He.
  - by rewrite app_nil_r.
  - by rewrite (delete_id _ _ He).
Qed.

Lemma diffEdges_fold (d : EdgeDiff) es :
  foldl diffEdge d es =
  mkEdgeDiff
    (foldl (fun v e => <[edgeKey e := true]> v) (ed_verify d) es)
    (foldl (fun m e => delete (edgeKey e) m) (ed_existing d) es)
    (ed_toAdd d ++ edgeAddsOf (ed_existing d) es).
Proof.
  revert d. induction es as [|e es IH]; intros d; simpl.
  - destruct d; simpl. by rewrite app_nil_r.
  - rewrite IH, diffEdge_eq. simpl. f_equal.
    destruct (ed_existing d !! edgeKey e) eqn:He.
    + by rewrite app_nil_r.
    + rewrite (delete_id _ _ He). by rewrite <- app_assoc.
Qed.

Lemma dom_verify (v : gmap string bool) es :
  dom (foldl (fun v e => <[edgeKey e := true]> v) v es) =
  list_to_set (edgeKey <$> es) ∪ dom v.
Proof.
  revert v. induction es as [|e es IH]; intros v; simpl.
  - set_solver.
  - rewrite IH, dom_insert_L. set_solver.
Qed.

Lemma size_list_to_set_le (l : list string) :
  (size (list_to_set l : gset string) ≤ length l)%nat.
Proof.
  induction l as [|x l IH].
  - by rewrite list_to_set_nil, size_empty.
  - rewrite list_to_set_cons. cbn [length].
    destruct (decide (x ∈ (list_to_set l : gset string))) as [Hin|Hnin].
    + replace ({[x]} ∪ list_to_set l) with (list_to_set l : gset string)
        by set_solver. lia.
    + rewrite size_union by set_solver. rewrite size_singleton. lia.
Qed.

Lemma size_list_to_set_lt (l : list string) :
  ¬ NoDup l → (size (list_to_set l : gset string) < length l)%nat.
Proof.
  induction l as [|x l IH]; intros Hdup.
  - destruct Hdup. constructor.
  - rewrite list_to_set_cons. cbn [length].
    destruct (decide (x ∈ l)) as [Hin|Hnin].
    + replace ({[x]} ∪ list_to_set l) with (list_to_set l : gset string)
        by set_solver.
      pose proof (size_list_to_set_le l). lia.
    + assert (¬ NoDup l) as Hl.
      { intros Hnd. apply Hdup. by constructor. }
      specialize (IH Hl).
      rewrite size_union by set_solver. rewrite size_singleton. lia.
Qed.

(** The verification set is as large as the payload exactly when the
    payload repeats no key. *)
Lemma verify_size existing es :
  size (ed_verify (diffEdges existing es)) = length es
  ↔ NoDup (edgeKey <$> es).
Proof.
  unfold diffEdges. rewrite diffEdges_fold. simpl.
  rewrite <- size_dom, dom_verify, dom_empty_L, (right_id_L ∅ (∪)).
  rewrite <- (length_fmap edgeKey es). split.
  - intros Hsz. destruct (decide (NoDup (edgeKey <$> es))) as [|Hdup]; [done|].
    apply size_list_to_set_lt in Hdup. lia.
  - apply size_list_to_set.
Qed.

(** In a payload without repeated keys the loop appends the edges whose
    key the baseline lacks. *)
Lemma edgeAddsOf_filter existing es :
  NoDup (edgeKey <$> es) →
  edgeAddsOf existing es = filter (fun e => edgeKey e ∉ dom existing) es.
Proof.
  revert existing. induction es as [|e es IH]; intros existing Hnd; [done|].
  rewrite fmap_cons in Hnd. apply NoDup_cons in Hnd as [Hnin Hnd].
  cbn [edgeAddsOf]. destruct (existing !! edgeKey e) eqn:He.
  - rewrite filter_cons_False.
    2:{ intros Hd. apply Hd. apply elem_of_dom. by eexists. }
    rewrite IH by done. apply filter_ext_elem. intros e' Hin.
    rewrite dom_delete_L.
    assert (edgeKey e' ≠ edgeKey e).
    { intros Heq. apply Hnin. rewrite <- Heq. by apply list_elem_of_fmap_2. }
    set_solver.
  - rewrite filter_cons_True by (by apply not_elem_of_dom).
    by rewrite IH.
Qed.

(** Key by key: every occurrence of a key that the baseline lacks is
    appended, and every occurrence but the first of a key that the baseline
    holds. *)
Lemma edgeAddsOf_key existing es (k : string) :
  filter (fun e => edgeKey e = k) (edgeAddsOf existing es) =
  match existing !! k with
  | Some _ => drop 1 (filter (fun e => edgeKey e = k) es)
  | None => filter (fun e => edgeKey e = k) es
  end.
Proof.
  revert existing. induction es as [|e es IH]; intros existing.
  - cbn. by destruct (existing !! k).
  - cbn [edgeAddsOf]. destruct (decide (edgeKey e = k)) as [Hk|Hk].
    + rewrite (filter_cons_True _ e es) by done. subst k.
      destruct (existing !! edgeKey e) eqn:He.
      * rewrite IH, lookup_delete_eq. done.
      * rewrite filter_cons_True by done. rewrite IH, He. done.
    + rewrite (filter_cons_False _ e es) by done.
      destruct (existing !! edgeKey e) eqn:He.
      * rewrite IH, lookup_delete_ne by done. done.
      * rewrite filter_cons_False by done. by rewrite IH.
Qed.

(** Every entry of the edge baseline sits under the key of its edge. *)
Lemma scanEdgeRecord_keys (rs : list (list Value)) (k : string) e :
  fst (foldl scanEdgeRecord (∅, 0%Z) rs) !! k = Some e → edgeKey e = k.
Proof.
  revert k e. induction rs as [|r rs IH] using rev_ind; intros k e.
  - cbn. by rewrite lookup_empty.
  - rewrite foldl_app. cbn [foldl].
    destruct (foldl scanEdgeRecord (∅, 0%Z) rs) as [existing dupCount].
    unfold scanEdgeRecord. cbn [fst] in *.
    destruct (existing !! _) eqn:Hk; cbn [fst]; [apply IH|].
    rewrite lookup_insert. case_decide as Heq.
    + intros [= <-]. by rewrite <- Heq.
    + apply IH.
Qed.
End EdgeLoop.

(** ** The resource loop *)

Section ResourceLoop.
Context (deps : Deps) (ord : MapOrder).
Implicit Types (existing : gmap string Node) (rs : list Resource).
Implicit Types (r : Resource) (n : Node).

Lemma scanProperties_eq r n (props : list (string * Value)) (acc : list Resource) :
  scanProperties r n props acc =
  acc ++ (if propertiesDiffer r n props then [r] else []).
Proof.
  induction props as [|[key value] props IH]; cbn.
  - by rewrite app_nil_r.
  - destruct (propertyDiffers r n key value); [done | apply IH].
Qed.

Lemma diffResource_eq (d : ResourceDiff) r :
  diffResource deps ord d r =
  mkResourceDiff (delete (UID r) (rd_existing d))
    (rd_toAdd d ++ match rd_existing d !! UID r with
                   | None => [r]
                   | Some _ => []
                   end)
    (rd_toUpdate d ++ match rd_existing d !! UID r with
                      | None => []
                      | Some n => if needsUpdate deps ord r n then [r] else []
                      end)
    (rd_logs d ++ match rd_existing d !! UID r with
                  | None => []
                  | Some _ => encodeWarning deps r
                  end).
Proof.
  unfold diffResource, needsUpdate, encodeWarning.
  destruct (rd_existing d !! UID r) as [n|] eqn:Hn.
  - destruct (EncodeProperties deps r) as [enc [e|]].
    + by rewrite !app_nil_r.
    + by rewrite scanProperties_eq, !app_nil_r.
  - by rewrite (delete_id _ _ Hn), !app_nil_r.
Qed.

Lemma diffResources_fold (d : ResourceDiff) rs :
  foldl (diffResource deps ord) d rs =
  mkResourceDiff
    (foldl (fun m r => delete (UID r) m) (rd_existing d) rs)
    (rd_toAdd d ++ addsOf (rd_existing d) rs)
    (rd_toUpdate d ++ updatesOf deps ord (rd_existing d) rs)
    (rd_logs d ++ warningsOf deps (rd_existing d) rs).
Proof.
  revert d. induction rs as [|r rs IH]; intros d.
  - destruct d; cbn. by rewrite !app_nil_r.
  - cbn [foldl]. rewrite IH, diffResource_eq. cbn.
    destruct (rd_existing d !! UID r) as [n|] eqn:Hn.
    + by rewrite !app_nil_r, <- !app_assoc.
    + by rewrite (delete_id _ _ Hn), !app_nil_r, <- !app_assoc.
Qed.

Lemma diffResources_eq existing rs :
  diffResources deps ord existing rs =
  mkResourceDiff
    (filter (fun kv => fst kv ∉ UID <$> rs) existing)
    (addsOf existing rs) (updatesOf deps ord existing rs)
    (warningsOf deps existing rs).
Proof.
  unfold diffResources. rewrite diffResources_fold. cbn.
  by rewrite consumed_filter.
Qed.


(** With pairwise distinct incoming UIDs the decisions are those of the
    baseline. *)
Lemma addsOf_filter existing rs :
  NoDup (UID <$> rs) →
  addsOf existing rs = filter (fun r => UID r ∉ dom existing) rs.
Proof.
  revert existing. induction rs as [|r rs IH]; intros existing Hnd; [done|].
  rewrite fmap_cons in Hnd. apply NoDup_cons in Hnd as [Hnin Hnd].
  cbn [addsOf]. destruct (existing !! UID r) eqn:He.
  - rewrite filter_cons_False.
    2:{ intros Hd. apply Hd. apply elem_of_dom. by eexists. }
    rewrite IH by done. apply filter_ext_elem. intros r' Hin.
    rewrite dom_delete_L.
    assert (UID r' ≠ UID r).
    { intros Heq. apply Hnin. rewrite <- Heq. by apply list_elem_of_fmap_2. }
    set_solver.
  - rewrite filter_cons_True by (by apply not_elem_of_dom).
    by rewrite IH.
Qed.

Lemma updatesOf_filter existing rs :
  NoDup (UID <$> rs) →
  updatesOf deps ord existing rs =
  filter (fun r => foundAndDiffers deps ord existing r) rs.
Proof.
  revert existing. induction rs as [|r rs IH]; intros existing Hnd; [done|].
  rewrite fmap_cons in Hnd. apply NoDup_cons in Hnd as [Hnin Hnd].
  cbn [updatesOf].
  assert (∀ r', r' ∈ rs → delete (UID r) existing !! UID r' = existing !! UID r')
    as Hsame.
  { intros r' Hin. apply lookup_delete_ne. intros Heq. apply Hnin.
    rewrite Heq. by apply list_elem_of_fmap_2. }
  destruct (existing !! UID r) as [n|] eqn:He.
  - rewrite IH by done.
    rewrite (filter_ext_elem _ (fun r => foundAndDiffers deps ord existing r)).
    2:{ intros r' Hin. unfold foundAndDiffers. by rewrite Hsame. }
    destruct (needsUpdate deps ord r n) eqn:Hu.
    + rewrite filter_cons_True; [done|]. unfold foundAndDiffers.
      by rewrite He, Hu.
    + rewrite filter_cons_False; [done|]. unfold foundAndDiffers.
      rewrite He, Hu. by intros [].
  - rewrite filter_cons_False.
    2:{ unfold foundAndDiffers. rewrite He. by intros []. }
    by apply IH.
Qed.

(** The scan of the properties does not depend on the order of the range
    statement. *)
Lemma propertiesDiffer_range r n (enc : gmap string Value) :
  propertiesDiffer r n (mapRange ord enc) = true ↔
  ∃ key value, enc !! key = Some value ∧ propertyDiffers r n key value = true.
Proof.
  unfold propertiesDiffer. rewrite existsb_exists. split.
  - intros ([key value] & Hin & Hd). exists key, value. split; [|done].
    apply elem_of_map_to_list. rewrite <- (mapRange_perm ord).
    by apply list_elem_of_In.
  - intros (key & value & Hl & Hd). exists (key, value). split; [|done].
    apply list_elem_of_In. rewrite (mapRange_perm ord).
    by apply elem_of_map_to_list.
Qed.

Lemma needsUpdate_spec r n :
  needsUpdate deps ord r n = true ↔
  is_Some (snd (EncodeProperties deps r))
  ∨ ∃ key value, fst (EncodeProperties deps r) !! key = Some value
                 ∧ propertyDiffers r n key value = true.
Proof.
  unfold needsUpdate. destruct (EncodeProperties deps r) as [enc [e|]]; cbn.
  - split; [intros _; left; by eexists | done].
  - rewrite propertiesDiffer_range. split; [by right|].
    intros [[? [=]]|?]; done.
Qed.
End ResourceLoop.

(** ** The scan of the stored resources *)

Section Scan.
Implicit Types (rs : list (list Value)) (r : list Value) (u : string).

Lemma recordNode_uid r u (n : Node) :
  recordNode r = Some (u, n) → goIndex n "_uid" = VString u.
Proof.
  unfold recordNode. destruct (GetByIndex r 0); try done.
  destruct (goIndex props "_uid") eqn:Hu; try done. by intros [= <- <-].
Qed.

Lemma scanRecord_eq (ex : gmap string Node) (dup : gmap string Z) r :
  scanRecord (ex, dup) r =
  match recordNode r with
  | None => (ex, dup)
  | Some (u, n) =>
      match ex !! u with
      | Some _ =>
          (ex, <[u := match dup !! u with
                      | None => 1%Z
                      | Some c => (c + 1)%Z
                      end]> dup)
      | None => (<[u := n]> ex, dup)
      end
  end.
Proof.
  unfold scanRecord, recordNode. destruct (GetByIndex r 0); try done.
  destruct (goIndex props "_uid"); try done.
  destruct (ex !! s); [|done]. by destruct (dup !! s).
Qed.

Lemma occurrences_snoc u rs r :
  occurrences u (rs ++ [r]) =
  (occurrences u rs +
   if decide (fst <$> recordNode r = Some u) then 1 else 0)%nat.
Proof.
  unfold occurrences. rewrite filter_app, length_app. f_equal.
  case_decide.
  - by rewrite filter_cons_True.
  - by rewrite filter_cons_False.
Qed.

(** The map of line 41 holds the UIDs met at least once, each with a node
    carrying that UID; the map of line 42 holds the UIDs met at least
    twice. *)
Lemma scanRecords_inv rs :
  (∀ u, is_Some (fst (scanRecords rs) !! u) ↔ (1 ≤ occurrences u rs)%nat)
  ∧ (∀ u, is_Some (snd (scanRecords rs) !! u) ↔ (2 ≤ occurrences u rs)%nat)
  ∧ (∀ u (n : Node), fst (scanRecords rs) !! u = Some n →
                     goIndex n "_uid" = VString u).
Proof.
  unfold scanRecords. induction rs as [|r rs IH] using rev_ind.
  - cbn. split_and!; intros u; rewrite ?lookup_empty, ?is_Some_alt; try lia.
    done.
  - rewrite foldl_app. cbn [foldl].
    destruct (foldl scanRecord (∅, ∅) rs) as [ex dup].
    destruct IH as (IH1 & IH2 & IH3). cbn [fst snd] in *.
    rewrite scanRecord_eq.
    destruct (recordNode r) as [[u0 n0]|] eqn:Hr.
    2:{ split_and!; [| |done]; intros u; rewrite occurrences_snoc, Hr;
        cbn; rewrite decide_False by done; rewrite Nat.add_0_r; auto. }
    pose proof (IH1 u0) as H1. pose proof (IH2 u0) as H2.
    destruct (ex !! u0) as [n1|] eqn:Hex; cbn [fst snd].
    + assert (1 ≤ occurrences u0 rs)%nat by (apply H1; by eexists).
      split_and!; [| |done]; intros u; rewrite occurrences_snoc, Hr; cbn.
      * case_decide; [|rewrite Nat.add_0_r; auto].
        simplify_eq. rewrite Hex. split; [lia | by eexists].
      * rewrite lookup_insert. case_decide as Hu.
        -- subst u. rewrite decide_True by done. split; [lia | by eexists].
        -- rewrite decide_False by congruence. rewrite Nat.add_0_r. auto.
    + assert (occurrences u0 rs = 0)%nat as Hz.
      { destruct (occurrences u0 rs) eqn:Ho; [done|].
        assert (is_Some (None : option Node)) as [? [=]]. apply H1. lia. }
      split_and!; intros u.
      * rewrite occurrences_snoc, Hr. cbn. rewrite lookup_insert.
        case_decide as Hu.
        -- subst u. rewrite decide_True by done. split; [lia | by eexists].
        -- rewrite decide_False by congruence. rewrite Nat.add_0_r. auto.
      * rewrite occurrences_snoc, Hr. cbn. case_decide as Hu.
        -- simplify_eq. rewrite IH2. lia.
        -- rewrite Nat.add_0_r. auto.
      * intros n. rewrite lookup_insert. case_decide as Hu.
        -- intros [= <-]. subst u. by eapply recordNode_uid.
        -- apply IH3.
Qed.
End Scan.

(** ** Runs, step by step *)

Section Steps.
Context {S : Type} (store : Store S) (deps : Deps) (ord : MapOrder).
Implicit Types (w : World S).

Lemma bind_returned {A B : Type} (c : M S A) (k : A → M S B) w a w' :
  c w = (Returned a, w') → (c ≫= k) w = k a w'.
Proof. intros H. unfold mbind, M_bind. by rewrite H. Qed.

Lemma bind_panicked {A B : Type} (c : M S A) (k : A → M S B) w w' :
  c w = (Panicked, w') → (c ≫= k) w = (Panicked, w').
Proof. intros H. unfold mbind, M_bind. by rewrite H. Qed.

Lemma call_run {A : Type} (c : A → Call) (op : S → A * S) w :
  call c op w =
  (Returned (fst (op (w_store w))),
   mkWorld (snd (op (w_store w)))
     (w_calls w ++ [c (fst (op (w_store w)))]) (w_logs w)).
Proof. unfold call. by destruct (op (w_store w)). Qed.

Lemma whenSome_glog_run {A : Type} (x : option A) (f : A → LogEntry) w :
  whenSome x (fun a => glog (f a)) w =
  (Returned tt,
   mkWorld (w_store w) (w_calls w)
     (w_logs w ++ match x with Some a => [f a] | None => [] end)).
Proof.
  destruct x; cbn; [done|]. destruct w; cbn. by rewrite app_nil_r.
Qed.

Lemma when_glog_run (cond : bool) (e : LogEntry) w :
  when cond (glog e) w =
  (Returned tt,
   mkWorld (w_store w) (w_calls w) (w_logs w ++ if cond then [e] else [])).
Proof.
  destruct cond; cbn; [done|]. destruct w; cbn. by rewrite app_nil_r.
Qed.

Lemma when_count_run (cond : bool) (clusterName : string) w :
  when cond (_ ← call (CComputeIntraEdges clusterName)
                      (computeIntraEdges store clusterName); mret tt) w =
  (Returned tt,
   mkWorld
     (if cond then snd (computeIntraEdges store clusterName (w_store w))
      else w_store w)
     (w_calls w ++
      if cond
      then [CComputeIntraEdges clusterName
              (fst (computeIntraEdges store clusterName (w_store w)))]
      else [])
     (w_logs w)).
Proof.
  destruct cond; cbn.
  - unfold mbind, M_bind. by rewrite call_run.
  - destruct w; cbn. by rewrite app_nil_r.
Qed.

Lemma deleteDuplicates_run (dupes : list (string * Z))
    (existing : gmap string Node) w :
  ∃ (s' : S) (answers : list QueryReturn),
    length answers = length dupes
    ∧ deleteDuplicates store deps dupes existing w =
      (Returned (foldl (fun m kv => delete (fst kv) m) existing dupes),
       mkWorld s' (w_calls w ++ dupCalls deps dupes.*1 answers)
         (w_logs w ++ dupLogs dupes.*1 answers)).
Proof.
  revert existing w. induction dupes as [|[u c] dupes IH]; intros existing w.
  - exists (w_store w), []. split; [done|]. cbn. destruct w; cbn.
    by rewrite !app_nil_r.
  - cbn [deleteDuplicates].
    erewrite bind_returned by apply call_run.
    destruct (Query store _ (w_store w)) as [[res delError] s1]. cbn [fst snd].
    erewrite bind_returned by apply whenSome_glog_run.
    cbn [w_store w_calls w_logs].
    match goal with
    | |- context [deleteDuplicates _ _ _ ?m ?w0] =>
        destruct (IH m w0) as (s' & answers & Hlen & ->)
    end.
    exists s', ((res, delError) :: answers). split; [cbn; by rewrite Hlen|].
    cbn. by rewrite <- !app_assoc.
Qed.

Lemma appendDeleteUIDS_run (rest : list (string * Node))
    (deleteUIDS : list string) w :
  (∀ u (n : Node), (u, n) ∈ rest → goIndex n "_uid" = VString u) →
  appendDeleteUIDS rest deleteUIDS w = (Returned (deleteUIDS ++ rest.*1), w).
Proof.
  revert deleteUIDS. induction rest as [|[u n] rest IH]; intros acc Huid.
  - cbn. by rewrite app_nil_r.
  - cbn [appendDeleteUIDS]. rewrite (Huid u n) by (apply elem_of_cons; by left).
    cbn. rewrite IH.
    + by rewrite <- app_assoc.
    + intros u' n' Hin. apply Huid. apply elem_of_cons. by right.
Qed.

(** Lines 174-189: the guard keeps [Next] away from a nil result. *)
Lemma scanEdges_run (currEdges : option QueryResult)
    (edgesError : option error) w :
  (edgesError = None → is_Some currEdges) →
  match edgesError with
  | None => es ← Next currEdges; mret (foldl scanEdgeRecord (∅, 0%Z) es)
  | Some _ => mret (∅, 0%Z)
  end w =
  (Returned match edgesError with
            | None => foldl scanEdgeRecord (∅, 0%Z)
                        (default [] (records <$> currEdges))
            | Some _ => (∅, 0%Z)
            end, w).
Proof.
  intros Hc. destruct edgesError; [done|].
  destruct Hc as [r ->]; done.
Qed.

(** Lines 195-200. *)
Lemma deleteDuplicateEdges_run (clusterName : string)
    (dupEdgedeleted : option QueryResult) (delEdgesError err : option error) w :
  (delEdgesError = None → is_Some dupEdgedeleted) →
  match delEdgesError with
  | Some e => glog (WarnDeletingDuplicateEdges clusterName e);; mret (Some e)
  | None => _ ← relationshipsDeleted dupEdgedeleted; mret err
  end w =
  (Returned match delEdgesError with Some e => Some e | None => err end,
   mkWorld (w_store w) (w_calls w)
     (w_logs w ++ match delEdgesError with
                  | Some e => [WarnDeletingDuplicateEdges clusterName e]
                  | None => []
                  end)).
Proof.
  intros Hc. destruct delEdgesError; [done|].
  destruct Hc as [r ->]; [done|]. destruct w; cbn. by rewrite app_nil_r.
Qed.

Lemma afterChunked_eq (resp : ChunkedOperationResult)
    (setErrors : list SyncError → SyncResponse → SyncResponse)
    (verb : string) (stats : SyncResponse) (err : option error) :
  afterChunked deps resp setErrors verb stats err =
  (match ConnectionError resp with
   | Some _ => stats
   | None => if bool_decide (size (ResourceErrors resp) ≠ 0)
             then setErrors (itemErrors deps resp verb) stats
             else stats
   end,
   match ConnectionError resp with
   | Some e => Some e
   | None => err
   end).
Proof.
  unfold afterChunked, itemErrors. destruct (ConnectionError resp); [done|].
  by case_bool_decide.
Qed.
End Steps.

(** ** A whole cycle *)

Section Cycle.
Context {S : Type} (store : Store S) (deps : Deps) (ord : MapOrder).
Implicit Types (w : World S) (l : Locals).

(** What a returning run of the function leaves behind: its locals in
    terms of the answers of the store, the calls it made and the lines it
    logged.  [answers] are the answers to the deletions of duplicated UIDs
    and [n1] to [n4] those of [computeIntraEdges]. *)
Record Cycle (clusterName : string) (resources : list Resource)
    (edges : list Edge) w l w' (answers : list QueryReturn)
    (n1 n2 n3 n4 : Z) : Prop := mkCycle {
  cy_result : is_Some (l_result l);
  cy_query :
    fst (Query store (SanitizeQuery deps existingResourcesFormat clusterName)
           (w_store w)) = (l_result l, l_error l);
  cy_scanned :
    scanRecords (default [] (records <$> l_result l)) =
    (l_scanned l, l_duplicatedResources l);
  cy_answers :
    length answers = length (mapRange ord (l_duplicatedResources l));
  cy_baseline :
    l_baseline l =
    foldl (fun m kv => delete (fst kv) m) (l_scanned l)
      (mapRange ord (l_duplicatedResources l));
  cy_diff :
    diffResources deps ord (l_baseline l) resources =
    mkResourceDiff (l_existingResources l) (l_resourcesToAdd l)
      (l_resourcesToUpdate l) (warningsOf deps (l_baseline l) resources);
  cy_deleteUIDS :
    l_deleteUIDS l = (mapRange ord (l_existingResources l)).*1;
  cy_currEdges : l_edgesError l = None → is_Some (l_currEdges l);
  cy_edgeBaseline :
    l_edgeBaseline l =
    match l_edgesError l with
    | None => fst (foldl scanEdgeRecord (∅, 0%Z)
                     (default [] (records <$> l_currEdges l)))
    | Some _ => ∅
    end;
  cy_edgeDiff :
    diffEdges (l_edgeBaseline l) edges =
    mkEdgeDiff (l_verifyEdges l) (l_existingEdges l) (l_edgesToAdd l);
  cy_edgesToDelete :
    l_edgesToDelete l = collectEdgesToDelete ord (l_existingEdges l);
  cy_stats :
    l_stats l =
    mkSyncResponse
      (SuccessfulResources (l_insertResponse l))
      (SuccessfulResources (l_updateResponse l))
      (SuccessfulResources (l_deleteResponse l))
      (SuccessfulResources (l_insertEdgeResponse l))
      (SuccessfulResources (l_deleteEdgeResponse l))
      (itemErrors deps (l_insertResponse l) "inserted")
      (itemErrors deps (l_updateResponse l) "updated")
      (itemErrors deps (l_deleteResponse l) "deleted")
      (itemErrors deps (l_insertEdgeResponse l) "inserted by edge")
      (itemErrors deps (l_deleteEdgeResponse l) "removed by edge");
  cy_err :
    l_err l =
    lastError [l_error l; ConnectionError (l_insertResponse l);
               ConnectionError (l_updateResponse l);
               ConnectionError (l_deleteResponse l);
               l_edgesError l; l_delEdgesError l;
               ConnectionError (l_insertEdgeResponse l);
               ConnectionError (l_deleteEdgeResponse l)];
  cy_calls :
    w_calls w' =
    w_calls w
    ++ [CQuery (SanitizeQuery deps existingResourcesFormat clusterName)
          (l_result l, l_error l)]
    ++ dupCalls deps (mapRange ord (l_duplicatedResources l)).*1 answers
    ++ [CChunkedInsert (l_resourcesToAdd l) clusterName (l_insertResponse l);
        CChunkedUpdate (l_resourcesToUpdate l) (l_updateResponse l);
        CChunkedDelete (l_deleteUIDS l) (l_deleteResponse l);
        CComputeIntraEdges clusterName n1;
        CQuery (existingEdgesQuery clusterName)
          (l_currEdges l, l_edgesError l);
        CQuery (deleteDuplicateEdgesQuery clusterName)
          (l_dupEdgedeleted l, l_delEdgesError l);
        CComputeIntraEdges clusterName n2;
        CChunkedInsertEdge (l_edgesToAdd l) clusterName
          (l_insertEdgeResponse l)]
    ++ (if bool_decide (Z.of_nat (length (l_edgesToAdd l))
                        ≠ EdgesAdded (l_insertEdgeResponse l))
        then [CComputeIntraEdges clusterName n3] else [])
    ++ [CChunkedDeleteEdge (l_edgesToDelete l) clusterName
          (l_deleteEdgeResponse l)]
    ++ (if bool_decide (Z.of_nat (length (l_edgesToDelete l))
                        ≠ EdgesDeleted (l_deleteEdgeResponse l))
        then [CComputeIntraEdges clusterName n4] else []);
  cy_logs :
    w_logs w' =
    w_logs w
    ++ match l_error l with
       | Some _ => [ErrExistingResources clusterName]
       | None => []
       end
    ++ (if bool_decide (0 < size (l_duplicatedResources l))
        then [WarnDuplicateRecords clusterName
                (size (l_duplicatedResources l))]
        else [])
    ++ dupLogs (mapRange ord (l_duplicatedResources l)).*1 answers
    ++ warningsOf deps (l_baseline l) resources
    ++ match l_edgesError l with
       | Some e => [WarnExistingEdges clusterName e]
       | None => []
       end
    ++ match l_delEdgesError l with
       | Some e => [WarnDeletingDuplicateEdges clusterName e]
       | None => []
       end
    ++ (if bool_decide (size (l_verifyEdges l) ≠ length edges)
        then [ErrDuplicateEdgesInPayload clusterName] else [])
    ++ (if bool_decide
             ((Z.of_nat (size (l_edgeBaseline l))
               + Z.of_nat (length (l_edgesToAdd l))
               - Z.of_nat (length (l_edgesToDelete l)))%Z
              ≠ Z.of_nat (length edges))
        then [WarnExpectedEdges clusterName
                (Z.of_nat (size (l_edgeBaseline l))
                 + Z.of_nat (length (l_edgesToAdd l))
                 - Z.of_nat (length (l_edgesToDelete l)))%Z
                (Z.of_nat (length edges))]
        else [])
}.

Lemma mapRange_empty {A : Type} (m : gmap string A) :
  size m = 0%nat → mapRange ord m = [].
Proof.
  intros Hm. apply map_size_empty_iff in Hm. subst m.
  apply Permutation_nil_r. rewrite (mapRange_perm ord).
  by rewrite map_to_list_empty.
Qed.

(** Lines 62-73 as a whole. *)
Lemma dedupe_run (clusterName : string)
    (scanned : gmap string Node) (dup : gmap string Z) w :
  ∃ (s' : S) (answers : list QueryReturn),
    length answers = length (mapRange ord dup)
    ∧ (if bool_decide (0 < size dup)%nat
       then glog (WarnDuplicateRecords clusterName (size dup));;
            deleteDuplicates store deps (mapRange ord dup) scanned
       else mret scanned) w =
      (Returned (foldl (fun m kv => delete (fst kv) m) scanned
                   (mapRange ord dup)),
       mkWorld s' (w_calls w ++ dupCalls deps (mapRange ord dup).*1 answers)
         (w_logs w
          ++ (if bool_decide (0 < size dup)%nat
              then [WarnDuplicateRecords clusterName (size dup)] else [])
          ++ dupLogs (mapRange ord dup).*1 answers)).
Proof.
  case_bool_decide as Hsz.
  - erewrite bind_returned by reflexivity.
    match goal with
    | |- context [deleteDuplicates _ _ ?d ?m ?w0] =>
        destruct (deleteDuplicates_run store deps d m w0)
          as (s' & answers & Hlen & ->)
    end.
    exists s', answers. split; [done|]. cbn. by rewrite <- !app_assoc.
  - rewrite mapRange_empty by lia. exists (w_store w), []. split; [done|].
    cbn. destruct w; cbn. by rewrite !app_nil_r.
Qed.

(** Every node that survives to the deletion pass carries its key as
    UID, so the assertion of line 143 holds. *)
Lemma leftover_uid (rs : list (list Value)) (dupes : list (string * Z))
    (resources : list Resource) (u : string) (n : Node) :
  rd_existing (diffResources deps ord
                 (foldl (fun m kv => delete (fst kv) m)
                    (fst (scanRecords rs)) dupes) resources) !! u = Some n →
  goIndex n "_uid" = VString u.
Proof.
  rewrite diffResources_eq. cbn [rd_existing].
  intros [Hb _]%map_lookup_filter_Some.
  rewrite consumed_filter in Hb. apply map_lookup_filter_Some in Hb as [Hs _].
  by eapply scanRecords_inv.
Qed.

Lemma afterChunked_fst (resp : ChunkedOperationResult)
    (setErrors : list SyncError → SyncResponse → SyncResponse)
    (verb : string) (stats : SyncResponse) (err : option error) :
  setErrors [] stats = stats →
  afterChunked deps resp setErrors verb stats err =
  (setErrors (itemErrors deps resp verb) stats,
   match ConnectionError resp with Some e => Some e | None => err end).
Proof.
  intros Hnil. rewrite afterChunked_eq. unfold itemErrors.
  destruct (ConnectionError resp); [by rewrite Hnil|].
  case_bool_decide; [done | by rewrite Hnil].
Qed.

(** The function returns whenever the first query hands back a result and
    the store follows the convention, and then its locals, calls and log
    lines are those of [Cycle]. *)
Lemma resyncClusterLocals_run (clusterName : string)
    (resources : list Resource) (edges : list Edge) w :
  is_Some (fst (fst (Query store
                       (SanitizeQuery deps existingResourcesFormat clusterName)
                       (w_store w)))) →
  conventional store →
  ∃ l w' answers n1 n2 n3 n4,
    resyncClusterLocals store deps ord clusterName resources edges w =
    (Returned l, w')
    ∧ Cycle clusterName resources edges w l w' answers n1 n2 n3 n4.
Proof.
  intros [res Hres] Hconv. unfold resyncClusterLocals.
  erewrite bind_returned by apply call_run.
  destruct (Query store _ (w_store w)) as [[result error0] s1] eqn:HQ.
  cbn [fst snd] in Hres |- *. subst result.
  erewrite bind_returned by apply whenSome_glog_run.
  erewrite bind_returned by reflexivity.
  destruct (scanRecords (records res)) as [scanned dup] eqn:Hscan.
  cbn [fst snd].
  match goal with
  | |- context [mbind _ (if _ then _ else _) ?w0] =>
      destruct (dedupe_run clusterName scanned dup w0)
        as (s2 & answers & Hanswers & Hdedupe)
  end.
  erewrite bind_returned by apply Hdedupe. clear Hdedupe.
  cbn [w_store w_calls w_logs].
  set (baseline := foldl _ scanned _).
  pose proof (diffResources_eq deps ord baseline resources) as Hdiff.
  destruct (diffResources deps ord baseline resources)
    as [existing toAdd toUpdate warnings] eqn:Hd.
  cbn [rd_existing rd_toAdd rd_toUpdate rd_logs].
  erewrite bind_returned by reflexivity.
  erewrite bind_returned by apply call_run.
  cbn [w_store w_calls w_logs].
  destruct (ChunkedInsert store toAdd clusterName s2)
    as [insertResponse s3]. cbn [fst snd].
  rewrite afterChunked_fst by done.
  erewrite bind_returned by apply call_run.
  cbn [w_store w_calls w_logs].
  destruct (ChunkedUpdate store toUpdate s3) as [updateResponse s4].
  cbn [fst snd].
  rewrite afterChunked_fst by done.
  erewrite bind_returned.
  2:{ apply appendDeleteUIDS_run. intros u n Hin.
      apply list_elem_of_In in Hin.
      rewrite (mapRange_perm ord) in Hin.
      apply list_elem_of_In, elem_of_map_to_list in Hin.
      apply (leftover_uid (records res) (mapRange ord dup) resources).
      rewrite Hscan. cbn [fst]. fold baseline. by rewrite Hd. }
  rewrite app_nil_l.
  erewrite bind_returned by apply call_run.
  cbn [w_store w_calls w_logs].
  destruct (ChunkedDelete store _ s4) as [deleteResponse s5].
  cbn [fst snd].
  rewrite afterChunked_fst by done.
  erewrite bind_returned by apply call_run.
  cbn [w_store w_calls w_logs].
  destruct (computeIntraEdges store clusterName s5) as [n1 s6].
  cbn [fst snd].
  erewrite bind_returned by apply call_run.
  cbn [w_store w_calls w_logs].
  pose proof (Hconv (existingEdgesQuery clusterName) s6) as Hc1.
  destruct (Query store (existingEdgesQuery clusterName) s6)
    as [[currEdges edgesError] s7].
  cbn [fst snd] in Hc1 |- *.
  erewrite bind_returned by apply whenSome_glog_run.
  cbn [w_store w_calls w_logs].
  erewrite bind_returned by (by apply scanEdges_run).
  erewrite bind_returned by apply call_run.
  cbn [w_store w_calls w_logs].
  pose proof (Hconv (deleteDuplicateEdgesQuery clusterName) s7) as Hc2.
  destruct (Query store (deleteDuplicateEdgesQuery clusterName) s7)
    as [[dupEdgedeleted delEdgesError] s8].
  cbn [fst snd] in Hc2 |- *.
  erewrite bind_returned by (by apply deleteDuplicateEdges_run).
  cbn [w_store w_calls w_logs].
  erewrite bind_returned by apply call_run.
  cbn [w_store w_calls w_logs].
  destruct (computeIntraEdges store clusterName s8) as [n2 s9].
  cbn [fst snd].
  set (edgeBaseline := fst match edgesError with
                           | None => _
                           | Some _ => _
                           end).
  destruct (diffEdges edgeBaseline edges) as [verify existingEdges edgesToAdd]
    eqn:Hed.
  cbn [ed_verify ed_existing ed_toAdd].
  erewrite bind_returned by apply when_glog_run.
  erewrite bind_returned by apply when_glog_run.
  cbn [w_store w_calls w_logs].
  erewrite bind_returned by apply call_run.
  cbn [w_store w_calls w_logs].
  destruct (ChunkedInsertEdge store edgesToAdd clusterName s9)
    as [insertEdgeResponse s10]. cbn [fst snd].
  rewrite afterChunked_fst by done.
  erewrite bind_returned by apply when_count_run.
  cbn [w_store w_calls w_logs].
  erewrite bind_returned by apply call_run.
  cbn [w_store w_calls w_logs].
  destruct (computeIntraEdges store clusterName s10) as [n3 s11].
  cbn [fst snd].
  match goal with
  | |- context [ChunkedDeleteEdge store ?es clusterName ?s] =>
      destruct (ChunkedDeleteEdge store es clusterName s)
        as [deleteEdgeResponse s12]
  end.
  cbn [fst snd].
  rewrite afterChunked_fst by done.
  erewrite bind_returned by apply when_count_run.
  cbn [w_store w_calls w_logs].
  destruct (computeIntraEdges store clusterName s12) as [n4 s13].
  cbn [fst snd].
  eexists _, _, answers, n1, n2, n3, n4. split; [reflexivity|].
  injection Hdiff as -> -> -> ->.
  split; cbn [l_result l_error l_scanned l_duplicatedResources l_baseline
              l_resourcesToAdd l_resourcesToUpdate l_existingResources
              l_deleteUIDS l_insertResponse l_updateResponse
              l_deleteResponse l_currEdges l_edgesError l_edgeBaseline
              l_dupCount l_dupEdgedeleted l_delEdgesError l_verifyEdges
              l_edgesToAdd l_existingEdges l_edgesToDelete
              l_insertEdgeResponse l_deleteEdgeResponse l_stats l_err
              w_calls w_logs fmap option_fmap option_map default].
  - by eexists.
  - by rewrite HQ.
  - done.
  - done.
  - done.
  - done.
  - done.
  - done.
  - subst edgeBaseline. by destruct edgesError.
  - done.
  - done.
  - done.
  - unfold lastError. cbn [foldl]. done.
  - rewrite <- !app_assoc. cbn [app].
    repeat f_equal; by case_bool_decide.
  - rewrite <- !app_assoc. done.
Qed.
End Cycle.

(** ** The concrete environment is well behaved *)

(** A concrete run is read off by evaluation. *)
Lemma returned_run {A W : Type} (r : Outcome A * W) (P : A → W → Prop) :
  match r with
  | (Returned a, w') => P a w'
  | (Panicked, _) => False
  end →
  ∃ a w', r = (Returned a, w') ∧ P a w'.
Proof. destruct r as [[a|] w']; [|done]. intros HP. by exists a, w'. Qed.

Lemma demoHealthy_conventional (clusterName : string)
    (nodes rows : list (list Value)) :
  conventional (scriptedStore (demoHealthy clusterName nodes rows)).
Proof.
  intros q s _. cbn. unfold demoHealthy, healthyScript. cbn.
  repeat case_bool_decide; by eexists.
Defined.

Lemma lostOnInsert_conventional (clusterName : string) :
  conventional (scriptedStore (lostOnInsert clusterName)).
Proof. apply demoHealthy_conventional. Defined.


Lemma demoHealthy_answers (clusterName : string)
    (nodes rows : list (list Value)) :
  is_Some (fst (fst (Query (scriptedStore (demoHealthy clusterName nodes rows))
                       (SanitizeQuery demoDeps existingResourcesFormat clusterName)
                       (w_store world0)))).
Proof. cbn. rewrite bool_decide_eq_true_2 by done. by eexists. Defined.

(** * The claims *)

Section Claims.
Context {S : Type} (store : Store S) (deps : Deps) (ord : MapOrder).
Implicit Types (w : World S) (l : Locals).

Lemma resyncCluster_of_locals (clusterName : string)
    (resources : list Resource) (edges : list Edge) w l w' :
  resyncClusterLocals store deps ord clusterName resources edges w =
  (Returned l, w') →
  resyncCluster store deps ord clusterName resources edges w =
  (Returned (l_stats l, l_err l), w').
Proof. intros H. unfold resyncCluster. by erewrite bind_returned. Qed.

Lemma filter_isMutation_dupCalls (uids : list string)
    (answers : list QueryReturn) :
  filter (fun c => isMutation c) (dupCalls deps uids answers) = [].
Proof.
  revert answers. induction uids as [|u uids IH]; intros [|a answers]; try done.
  unfold dupCalls. cbn [zip_with]. rewrite filter_cons_False by (by intros []).
  apply IH.
Qed.

Lemma queriesOf_dupCalls (uids : list string) (answers : list QueryReturn) :
  length answers = length uids →
  queriesOf (dupCalls deps uids answers) =
  SanitizeQuery deps deleteDuplicatesFormat <$> uids.
Proof.
  revert answers. induction uids as [|u uids IH]; intros [|a answers] Hlen;
    try done.
  unfold dupCalls. cbn [zip_with queriesOf omap list_omap fmap list_fmap].
  f_equal. apply IH. cbn in Hlen. lia.
Qed.

(** The chunked operations of a returning run: all five, in the order of
    the source. *)
Lemma cycle_mutations (clusterName : string) (resources : list Resource)
    (edges : list Edge) w l w' answers n1 n2 n3 n4 :
  Cycle store deps ord clusterName resources edges w l w' answers n1 n2 n3 n4 →
  filter (fun c => isMutation c) (w_calls w') =
  filter (fun c => isMutation c) (w_calls w) ++ mutationCalls clusterName l.
Proof.
  intros Hc. rewrite (cy_calls _ _ _ _ _ _ _ _ _ _ _ _ _ _ Hc).
  rewrite !filter_app, filter_isMutation_dupCalls. f_equal.
  repeat case_bool_decide; reflexivity.
Qed.

(** The query strings of a returning run. *)
Lemma cycle_queries (clusterName : string) (resources : list Resource)
    (edges : list Edge) w l w' answers n1 n2 n3 n4 :
  Cycle store deps ord clusterName resources edges w l w' answers n1 n2 n3 n4 →
  queriesOf (w_calls w') =
  queriesOf (w_calls w)
  ++ [SanitizeQuery deps existingResourcesFormat clusterName]
  ++ (SanitizeQuery deps deleteDuplicatesFormat
        <$> (mapRange ord (l_duplicatedResources l)).*1)
  ++ [existingEdgesQuery clusterName; deleteDuplicateEdgesQuery clusterName].
Proof.
  intros Hc. rewrite (cy_calls _ _ _ _ _ _ _ _ _ _ _ _ _ _ Hc).
  unfold queriesOf. rewrite !omap_app. fold queriesOf.
  rewrite queriesOf_dupCalls.
  2:{ rewrite length_fmap. apply (cy_answers _ _ _ _ _ _ _ _ _ _ _ _ _ _ Hc). }
  f_equal. f_equal. f_equal.
  repeat case_bool_decide; reflexivity.
Qed.

Lemma itemErrors_spec (resp : ChunkedOperationResult) (verb : string) :
  (is_Some (ConnectionError resp) → itemErrors deps resp verb = [])
  ∧ (itemErrors deps resp verb ≠ [] →
     ConnectionError resp = None
     ∧ itemErrors deps resp verb =
       processSyncErrors deps (ResourceErrors resp) verb).
Proof.
  unfold itemErrors. destruct (ConnectionError resp) as [e|].
  - split; [done | by intros []].
  - split; [by intros [? [=]]|]. case_bool_decide; [done | by intros []].
Qed.

(** C10: in a run that returns, each error list of the response is empty
    whenever the chunked operation it belongs to reported a connection
    error; an error list that is not empty belongs to an operation without
    connection error and is the conversion of that operation's item errors. *)
Theorem item_errors_only_without_connection_error (clusterName : string)
    (resources : list Resource) (edges : list Edge) w :
  is_Some (fst (fst (Query store
                       (SanitizeQuery deps existingResourcesFormat clusterName)
                       (w_store w)))) →
  conventional store →
  ∃ l w',
    resyncClusterLocals store deps ord clusterName resources edges w =
    (Returned l, w')
    ∧ resyncCluster store deps ord clusterName resources edges w =
      (Returned (l_stats l, l_err l), w')
    ∧ filter (fun c => isMutation c) (w_calls w') =
      filter (fun c => isMutation c) (w_calls w) ++ mutationCalls clusterName l
    ∧ Forall2
        (fun errs av =>
           (is_Some (ConnectionError (fst av)) → errs = [])
           ∧ (errs ≠ [] →
              ConnectionError (fst av) = None
              ∧ errs = processSyncErrors deps (ResourceErrors (fst av)) (snd av)))
        (errorLists (l_stats l)) (answersAndVerbs l).
Proof.
  intros Hres Hconv.
  destruct (resyncClusterLocals_run store deps ord clusterName resources edges
              w Hres Hconv) as (l & w' & answers & n1 & n2 & n3 & n4 & Hrun & Hc).
  exists l, w'. split_and!; [done | by apply resyncCluster_of_locals | |].
  - by eapply cycle_mutations.
  - rewrite (cy_stats _ _ _ _ _ _ _ _ _ _ _ _ _ _ Hc).
    unfold errorLists, answersAndVerbs. cbn.
    repeat (constructor; [apply itemErrors_spec|]). constructor.
Qed.

(** C3, as the code has it: a connection error of a chunked operation
    becomes the returned error (the last error of the cycle wins) and stops
    nothing: every run that returns has called all five chunked operations,
    in the order of the source, on the lists the diff computed, and reports
    the success count of each. *)
Theorem connection_error_stops_no_mutation (clusterName : string)
    (resources : list Resource) (edges : list Edge) w :
  is_Some (fst (fst (Query store
                       (SanitizeQuery deps existingResourcesFormat clusterName)
                       (w_store w)))) →
  conventional store →
  ∃ l w',
    resyncClusterLocals store deps ord clusterName resources edges w =
    (Returned l, w')
    ∧ resyncCluster store deps ord clusterName resources edges w =
      (Returned (l_stats l, l_err l), w')
    ∧ filter (fun c => isMutation c) (w_calls w') =
      filter (fun c => isMutation c) (w_calls w) ++ mutationCalls clusterName l
    ∧ totals (l_stats l) = SuccessfulResources ∘ fst <$> answersAndVerbs l
    ∧ l_err l =
      lastError [l_error l; ConnectionError (l_insertResponse l);
                 ConnectionError (l_updateResponse l);
                 ConnectionError (l_deleteResponse l);
                 l_edgesError l; l_delEdgesError l;
                 ConnectionError (l_insertEdgeResponse l);
                 ConnectionError (l_deleteEdgeResponse l)].
Proof.
  intros Hres Hconv.
  destruct (resyncClusterLocals_run store deps ord clusterName resources edges
              w Hres Hconv) as (l & w' & answers & n1 & n2 & n3 & n4 & Hrun & Hc).
  exists l, w'. split_and!; [done | by apply resyncCluster_of_locals | | |].
  - by eapply cycle_mutations.
  - by rewrite (cy_stats _ _ _ _ _ _ _ _ _ _ _ _ _ _ Hc).
  - apply (cy_err _ _ _ _ _ _ _ _ _ _ _ _ _ _ Hc).
Qed.

(** The queries of a run that returns: the two that go through
    [SanitizeQuery], and the two of the edge phase, which are the formats of
    lines 162 and 194 filled with the cluster name as it came. *)
Lemma queries_of_a_cycle (clusterName : string)
    (resources : list Resource) (edges : list Edge) w :
  is_Some (fst (fst (Query store
                       (SanitizeQuery deps existingResourcesFormat clusterName)
                       (w_store w)))) →
  conventional store →
  ∃ l w',
    resyncClusterLocals store deps ord clusterName resources edges w =
    (Returned l, w')
    ∧ queriesOf (w_calls w') =
      queriesOf (w_calls w)
      ++ [SanitizeQuery deps existingResourcesFormat clusterName]
      ++ (SanitizeQuery deps deleteDuplicatesFormat
            <$> (mapRange ord (l_duplicatedResources l)).*1)
      ++ [existingEdgesQuery clusterName;
          deleteDuplicateEdgesQuery clusterName].
Proof.
  intros Hres Hconv.
  destruct (resyncClusterLocals_run store deps ord clusterName resources edges
              w Hres Hconv) as (l & w' & answers & n1 & n2 & n3 & n4 & Hrun & Hc).
  exists l, w'. split; [done|]. by eapply cycle_queries.
Qed.

(** When the first query answers with no result and an error, the loop of
    line 43 dereferences the nil result: the function panics after logging
    the error, before any mutation. *)
Lemma nil_result_panics (clusterName : string)
    (resources : list Resource) (edges : list Edge) w (e : error) :
  fst (Query store (SanitizeQuery deps existingResourcesFormat clusterName)
         (w_store w)) = (None, Some e) →
  ∃ w',
    resyncCluster store deps ord clusterName resources edges w = (Panicked, w')
    ∧ w_calls w' =
      w_calls w ++ [CQuery (SanitizeQuery deps existingResourcesFormat clusterName)
                      (None, Some e)]
    ∧ w_logs w' = w_logs w ++ [ErrExistingResources clusterName].
Proof.
  intros HQ.
  destruct (Query store (SanitizeQuery deps existingResourcesFormat clusterName)
              (w_store w)) as [[result error0] s1] eqn:HQ1.
  cbn in HQ. injection HQ as -> ->.
  eexists. split.
  - unfold resyncCluster. apply bind_panicked. unfold resyncClusterLocals.
    erewrite bind_returned by apply call_run. rewrite HQ1. cbn [fst snd].
    erewrite bind_returned by apply whenSome_glog_run.
    apply bind_panicked. reflexivity.
  - done.
Qed.


Lemma NoDup_mapRange_keys {A : Type} (m : gmap string A) :
  NoDup (mapRange ord m).*1.
Proof. rewrite (mapRange_perm ord). apply NoDup_fst_map_to_list. Qed.

Lemma elem_of_mapRange_keys {A : Type} (m : gmap string A) (k : string) :
  k ∈ (mapRange ord m).*1 ↔ is_Some (m !! k).
Proof.
  rewrite (mapRange_perm ord). rewrite list_elem_of_fmap. split.
  - intros ([k' x] & -> & Hin). apply elem_of_map_to_list in Hin. by eexists.
  - intros [x Hx]. exists (k, x). split; [done|]. by apply elem_of_map_to_list.
Qed.


Lemma cycle_resource_lists (clusterName : string) (resources : list Resource)
    (edges : list Edge) w l w' answers n1 n2 n3 n4 :
  Cycle store deps ord clusterName resources edges w l w' answers n1 n2 n3 n4 →
  l_existingResources l =
    filter (fun kv => fst kv ∉ UID <$> resources) (l_baseline l)
  ∧ l_resourcesToAdd l = addsOf (l_baseline l) resources
  ∧ l_resourcesToUpdate l = updatesOf deps ord (l_baseline l) resources.
Proof.
  intros Hc. pose proof (cy_diff _ _ _ _ _ _ _ _ _ _ _ _ _ _ Hc) as Hd.
  rewrite diffResources_eq in Hd. by injection Hd as <- <- <-.
Qed.

Lemma foundAndDiffers_found (existing : gmap string Node) (r : Resource) :
  foundAndDiffers deps ord existing r → UID r ∈ dom existing.
Proof.
  unfold foundAndDiffers. destruct (existing !! UID r) eqn:He; [|by intros []].
  intros _. apply elem_of_dom. by eexists.
Qed.

(** C5, for a snapshot of pairwise distinct UIDs: the adds are the incoming
    resources whose UID the baseline lacks, the updates are those found in
    the baseline that differ from it, every other incoming resource is a
    no-op, the deletions are the UIDs of the baseline that the snapshot does
    not carry, each once, and no UID is counted twice across the three
    sets. *)
Theorem distinct_uids_are_partitioned (clusterName : string)
    (resources : list Resource) (edges : list Edge) w :
  is_Some (fst (fst (Query store
                       (SanitizeQuery deps existingResourcesFormat clusterName)
                       (w_store w)))) →
  conventional store →
  NoDup (UID <$> resources) →
  ∃ l w',
    resyncClusterLocals store deps ord clusterName resources edges w =
    (Returned l, w')
    ∧ l_resourcesToAdd l =
      filter (fun r => UID r ∉ dom (l_baseline l)) resources
    ∧ l_resourcesToUpdate l =
      filter (fun r => foundAndDiffers deps ord (l_baseline l) r) resources
    ∧ (∀ r, r ∈ resources →
            ((r ∈ l_resourcesToAdd l) ∧ (r ∉ l_resourcesToUpdate l))
            ∨ ((r ∉ l_resourcesToAdd l) ∧ (r ∈ l_resourcesToUpdate l))
            ∨ ((r ∉ l_resourcesToAdd l) ∧ (r ∉ l_resourcesToUpdate l)
               ∧ (UID r ∈ dom (l_baseline l))))
    ∧ (∀ u, u ∈ l_deleteUIDS l ↔
            u ∈ dom (l_baseline l) ∧ u ∉ UID <$> resources)
    ∧ NoDup ((UID <$> (l_resourcesToAdd l ++ l_resourcesToUpdate l))
             ++ l_deleteUIDS l).
Proof.
  intros Hres Hconv Hnd.
  destruct (resyncClusterLocals_run store deps ord clusterName resources edges
              w Hres Hconv) as (l & w' & answers & n1 & n2 & n3 & n4 & Hrun & Hc).
  destruct (cycle_resource_lists _ _ _ _ _ _ _ _ _ _ _ Hc) as (Hex & Hadd & Hupd).
  rewrite addsOf_filter in Hadd by done.
  rewrite updatesOf_filter in Hupd by done.
  assert (∀ u, u ∈ l_deleteUIDS l ↔
               u ∈ dom (l_baseline l) ∧ u ∉ UID <$> resources) as Hdel.
  { intros u. rewrite (cy_deleteUIDS _ _ _ _ _ _ _ _ _ _ _ _ _ _ Hc).
    rewrite elem_of_mapRange_keys, Hex, elem_of_dom. unfold is_Some.
    setoid_rewrite map_lookup_filter_Some. naive_solver. }
  exists l, w'. split_and!; try done.
  - intros r Hin.
    assert (r ∈ l_resourcesToAdd l ↔ UID r ∉ dom (l_baseline l)) as ->.
    { rewrite Hadd, list_elem_of_filter. naive_solver. }
    assert (r ∈ l_resourcesToUpdate l ↔
            foundAndDiffers deps ord (l_baseline l) r) as ->.
    { rewrite Hupd, list_elem_of_filter. naive_solver. }
    pose proof (foundAndDiffers_found (l_baseline l) r) as Hfound.
    destruct (decide (UID r ∈ dom (l_baseline l))) as [Hd|Hd];
      destruct (foundAndDiffers deps ord (l_baseline l) r); cbn in *;
      naive_solver.
  - apply NoDup_app. split_and!.
    + rewrite fmap_app. apply NoDup_app. split_and!.
      * rewrite Hadd. eapply sublist_NoDup; [done|].
        apply fmap_sublist, sublist_filter.
      * intros u. rewrite Hadd, Hupd, !list_elem_of_fmap.
        intros (r1 & -> & [Hr1 _]%list_elem_of_filter)
               (r2 & Heq & [Hr2 _]%list_elem_of_filter).
        apply foundAndDiffers_found in Hr2. by rewrite Heq in Hr1.
      * rewrite Hupd. eapply sublist_NoDup; [done|].
        apply fmap_sublist, sublist_filter.
    + intros u Hu [_ Hn]%Hdel. apply Hn.
      rewrite Hadd, Hupd, fmap_app in Hu.
      apply elem_of_app in Hu as [Hu|Hu];
        apply list_elem_of_fmap in Hu as (r & -> & [_ Hr]%list_elem_of_filter);
        by apply list_elem_of_fmap_2.
    + rewrite (cy_deleteUIDS _ _ _ _ _ _ _ _ _ _ _ _ _ _ Hc).
      apply NoDup_mapRange_keys.
Qed.

Lemma propertyDiffers_spec (r : Resource) (n : Node) (key : string)
    (value : Value) :
  propertyDiffers r n key value = true ↔
  match value, goIndex n key with
  | VSeq _, VSeq _ =>
      DeepEqual (goIndex (Properties r) key) (goIndex n key) = false
  | _, _ => valueToString value ≠ valueToString (goIndex n key)
  end.
Proof.
  unfold propertyDiffers.
  destruct value, (goIndex n key); cbn;
    rewrite ?orb_false_r, ?negb_true_iff, ?bool_decide_eq_false;
    try done; split; congruence.
Qed.


Lemma cycle_edge_lists (clusterName : string) (resources : list Resource)
    (edges : list Edge) w l w' answers n1 n2 n3 n4 :
  Cycle store deps ord clusterName resources edges w l w' answers n1 n2 n3 n4 →
  size (l_verifyEdges l) = size (ed_verify (diffEdges (l_edgeBaseline l) edges))
  ∧ l_existingEdges l =
    filter (fun kv => fst kv ∉ edgeKey <$> edges) (l_edgeBaseline l)
  ∧ l_edgesToAdd l = edgeAddsOf (l_edgeBaseline l) edges
  ∧ (∀ k e, l_edgeBaseline l !! k = Some e → edgeKey e = k).
Proof.
  intros Hc. pose proof (cy_edgeDiff _ _ _ _ _ _ _ _ _ _ _ _ _ _ Hc) as Hd.
  split_and!.
  - by rewrite Hd.
  - unfold diffEdges in Hd. rewrite diffEdges_fold in Hd. cbn in Hd.
    injection Hd as _ <- _. apply consumed_filter.
  - unfold diffEdges in Hd. rewrite diffEdges_fold in Hd. cbn in Hd.
    by injection Hd as _ _ <-.
  - intros k e. rewrite (cy_edgeBaseline _ _ _ _ _ _ _ _ _ _ _ _ _ _ Hc).
    destruct (l_edgesError l); [by rewrite lookup_empty|].
    apply scanEdgeRecord_keys.
Qed.


Lemma repeated_key_NoDup (edges : list Edge) (k : string) :
  NoDup (edgeKey <$> edges) →
  (length (filter (fun e => edgeKey e = k) edges) ≤ 1)%nat.
Proof.
  induction edges as [|e edges IH]; intros Hnd; [cbn; lia|].
  rewrite fmap_cons in Hnd. apply NoDup_cons in Hnd as [Hnin Hnd].
  destruct (decide (edgeKey e = k)) as [Hk|Hk].
  - rewrite filter_cons_True by done.
    assert (filter (fun e => edgeKey e = k) edges = []) as ->; [|cbn; lia].
    destruct (filter _ edges) as [|e' es'] eqn:Hf; [done|].
    assert (e' ∈ filter (fun e => edgeKey e = k) edges) as Hin.
    { rewrite Hf. apply elem_of_cons. by left. }
    apply list_elem_of_filter in Hin as [He' Hin]. destruct Hnin.
    rewrite Hk, <- He'. by apply list_elem_of_fmap_2.
  - rewrite filter_cons_False by done. by apply IH.
Qed.

(** C1, as the code has it: when the payload carries an identity key more
    than once, the duplicate-payload error is logged (the verification set
    is smaller than the payload) and every occurrence is decided on its own
    against what is left of the baseline: if the baseline holds the key, the
    first occurrence removes it and is the no-op, and each later one is
    appended to the edges to add; if it does not, every occurrence is
    appended. *)
Theorem repeated_key_is_decided_per_occurrence (clusterName : string)
    (resources : list Resource) (edges : list Edge) w (k : string) :
  is_Some (fst (fst (Query store
                       (SanitizeQuery deps existingResourcesFormat clusterName)
                       (w_store w)))) →
  conventional store →
  (2 ≤ length (filter (fun e => edgeKey e = k) edges))%nat →
  ∃ l w',
    resyncClusterLocals store deps ord clusterName resources edges w =
    (Returned l, w')
    ∧ (size (l_verifyEdges l) < length edges)%nat
    ∧ ErrDuplicateEdgesInPayload clusterName ∈ w_logs w'
    ∧ filter (fun e => edgeKey e = k) (l_edgesToAdd l) =
      match l_edgeBaseline l !! k with
      | Some _ => drop 1 (filter (fun e => edgeKey e = k) edges)
      | None => filter (fun e => edgeKey e = k) edges
      end.
Proof.
  intros Hres Hconv Hrep.
  destruct (resyncClusterLocals_run store deps ord clusterName resources edges
              w Hres Hconv) as (l & w' & answers & n1 & n2 & n3 & n4 & Hrun & Hc).
  destruct (cycle_edge_lists _ _ _ _ _ _ _ _ _ _ _ Hc)
    as (Hsize & Hex & Hadd & Hkeys).
  assert (size (l_verifyEdges l) < length edges)%nat as Hlt.
  { rewrite Hsize. unfold diffEdges. rewrite diffEdges_fold. cbn [ed_verify].
    rewrite <- size_dom, dom_verify, dom_empty_L, (right_id_L ∅ (∪)).
    rewrite <- (length_fmap edgeKey edges). apply size_list_to_set_lt.
    intros Hnd. apply (repeated_key_NoDup _ k) in Hnd. lia. }
  exists l, w'. split_and!; [done | done | |].
  - rewrite (cy_logs _ _ _ _ _ _ _ _ _ _ _ _ _ _ Hc).
    rewrite (bool_decide_eq_true_2 (size (l_verifyEdges l) ≠ length edges))
      by lia.
    rewrite !elem_of_app. do 7 right. left. apply elem_of_cons. by left.
  - rewrite Hadd. apply edgeAddsOf_key.
Qed.
End Claims.

(** C9: [valueToString] renders an [int64] and an [int] in base-10 decimal
    (the rendering reads back as the number), so that [int64(42)] and the
    string ["42"] normalize to the same string; it hands a string back
    unchanged; and on any other value it returns the empty string.  It is a
    total function: no input makes it fail. *)
Theorem valueToString_normalizes :
  (∀ n : Z, valueToString (VInt64 n) = FormatInt10 n
            ∧ ParseInt10 (valueToString (VInt64 n)) = Some n)
  ∧ (∀ n : Z, valueToString (VInt n) = FormatInt10 n
              ∧ ParseInt10 (valueToString (VInt n)) = Some n)
  ∧ valueToString (VInt64 42) = valueToString (VString "42")
  ∧ (∀ s : string, valueToString (VString s) = s)
  ∧ valueToString VNil = ""
  ∧ (∀ b : bool, valueToString (VBool b) = "")
  ∧ (∀ seq : list Value, valueToString (VSeq seq) = "")
  ∧ (∀ props : gmap string Value, valueToString (VNode props) = "").
Proof.
  assert (∀ n : Z, ParseInt10 (FormatInt10 n) = Some n) as Hround.
  { intros n. unfold ParseInt10, FormatInt10.
    rewrite NilZero.isi.
    - cbn. by rewrite DecimalZ.of_to.
    - destruct n; cbn; try done. intros [= H].
      by apply Unsigned.to_uint_nonnil in H.
    - destruct n; cbn; try done. intros [= H].
      by apply Unsigned.to_uint_nonnil in H. }
  split_and!; try done; intros n; split; try done; apply Hround.
Qed.


Lemma item_errors_only_without_connection_error_witness :
  is_Some (fst (fst (Query (scriptedStore (lostOnInsert "c1"))
                       (SanitizeQuery demoDeps existingResourcesFormat "c1")
                       (w_store world0))))
  ∧ conventional (scriptedStore (lostOnInsert "c1"))
  ∧ ∃ l w',
      resyncClusterLocals (scriptedStore (lostOnInsert "c1")) demoDeps
        sortedOrder "c1" [resource "N1" []; resource "N2" []] [] world0 =
      (Returned l, w')
      ∧ resyncCluster (scriptedStore (lostOnInsert "c1")) demoDeps
          sortedOrder "c1" [resource "N1" []; resource "N2" []] [] world0 =
        (Returned (l_stats l, l_err l), w')
      ∧ filter (fun c => isMutation c) (w_calls w') =
        filter (fun c => isMutation c) (w_calls world0) ++ mutationCalls "c1" l
      ∧ Forall2
          (fun errs av =>
             (is_Some (ConnectionError (fst av)) → errs = [])
             ∧ (errs ≠ [] →
                ConnectionError (fst av) = None
                ∧ errs = processSyncErrors demoDeps (ResourceErrors (fst av))
                           (snd av)))
          (errorLists (l_stats l)) (answersAndVerbs l).
Proof.
  split; [apply (demoHealthy_answers "c1" [] [])|].
  split; [apply lostOnInsert_conventional|].
  apply (item_errors_only_without_connection_error
           (scriptedStore (lostOnInsert "c1")) demoDeps sortedOrder "c1"
           [resource "N1" []; resource "N2" []] [] world0).
  - apply (demoHealthy_answers "c1" [] []).
  - apply lostOnInsert_conventional.
Defined.

(** In that run the insert answers a connection error together with two item
    errors, and the response carries none of them. *)
Example lost_connection_drops_item_errors :
  ∃ l w',
    resyncClusterLocals (scriptedStore (lostOnInsert "c1")) demoDeps
      sortedOrder "c1" [resource "N1" []; resource "N2" []] [] world0 =
    (Returned l, w')
    ∧ size (ResourceErrors (l_insertResponse l)) = 2%nat
    ∧ AddErrors (l_stats l) = []
    ∧ l_err l = Some "connection refused".
Proof. apply returned_run. by vm_compute. Qed.


Lemma connection_error_stops_no_mutation_witness :
  is_Some (fst (fst (Query (scriptedStore (lostOnInsert "c1"))
                       (SanitizeQuery demoDeps existingResourcesFormat "c1")
                       (w_store world0))))
  ∧ conventional (scriptedStore (lostOnInsert "c1"))
  ∧ ∃ l w',
      resyncClusterLocals (scriptedStore (lostOnInsert "c1")) demoDeps
        sortedOrder "c1" [resource "N1" []] [] world0 = (Returned l, w')
      ∧ resyncCluster (scriptedStore (lostOnInsert "c1")) demoDeps
          sortedOrder "c1" [resource "N1" []] [] world0 =
        (Returned (l_stats l, l_err l), w')
      ∧ filter (fun c => isMutation c) (w_calls w') =
        filter (fun c => isMutation c) (w_calls world0) ++ mutationCalls "c1" l
      ∧ totals (l_stats l) = SuccessfulResources ∘ fst <$> answersAndVerbs l
      ∧ l_err l =
        lastError [l_error l; ConnectionError (l_insertResponse l);
                   ConnectionError (l_updateResponse l);
                   ConnectionError (l_deleteResponse l);
                   l_edgesError l; l_delEdgesError l;
                   ConnectionError (l_insertEdgeResponse l);
                   ConnectionError (l_deleteEdgeResponse l)].
Proof.
  split; [apply (demoHealthy_answers "c1" [] [])|].
  split; [apply lostOnInsert_conventional|].
  apply (connection_error_stops_no_mutation
           (scriptedStore (lostOnInsert "c1")) demoDeps sortedOrder "c1"
           [resource "N1" []] [] world0).
  - apply (demoHealthy_answers "c1" [] []).
  - apply lostOnInsert_conventional.
Defined.

(** C3, as stated, fails: the insert of [lostRun] answers a connection
    error, and the update of ["U"] and the deletion of ["D"] are called all
    the same, and counted. *)
Lemma update_and_delete_follow_a_lost_insert :
  ∃ l w',
    lostRun = (Returned l, w')
    ∧ ConnectionError (l_insertResponse l) = Some "connection refused"
    ∧ filter (fun c => isMutation c) (w_calls w') = mutationCalls "c1" l
    ∧ l_resourcesToUpdate l = [resource "U" [("k", VString "new")]]
    ∧ l_deleteUIDS l = ["D"]
    ∧ TotalUpdated (l_stats l) = 1%Z
    ∧ TotalDeleted (l_stats l) = 1%Z.
Proof. apply returned_run. vm_compute. done. Qed.

(** C2, at a failing query: the client answers no result and an error, the
    error is logged, and the loop over the result panics; nothing is
    mutated and nothing is returned. *)
Theorem resync_panics_when_first_query_fails :
  ∃ w',
    resyncCluster (scriptedStore failingQuery) demoDeps sortedOrder "c1"
      [resource "N1" []] [] world0 = (Panicked, w')
    ∧ w_calls w' =
      [CQuery "MATCH (n {cluster: 'c1'}) RETURN n"
         (None, Some "connection refused")]
    ∧ w_logs w' = [ErrExistingResources "c1"].
Proof.
  destruct (nil_result_panics (scriptedStore failingQuery) demoDeps sortedOrder
              "c1" [resource "N1" []] [] world0 "connection refused" eq_refl)
    as (w' & Hrun & Hcalls & Hlogs).
  exists w'. by split_and!.
Qed.

(** C4, at a cluster name with a quote in it: the query for the existing
    resources carries the name escaped by the sanitizer, and the two queries
    of the edge phase carry it as it came, the quote closing the literal. *)
Theorem edge_queries_skip_the_sanitizer :
  ∃ l w',
    demoRun (demoHealthy quotingName [] []) quotingName [] [] = (Returned l, w')
    ∧ queriesOf (w_calls w') =
      ["MATCH (n {cluster: 'c\'}) DETACH DELETE s //'}) RETURN n";
       "MATCH (s {cluster:'c'}) DETACH DELETE s //'})-[r]->(d {cluster:'c'}) DETACH DELETE s //'}) WHERE (r._interCluster <> true) OR (r._interCluster IS NULL) RETURN s._uid, type(r), d._uid";
       "MATCH (s {cluster:'c'}) DETACH DELETE s //'})-[r]->(d {cluster:'c'}) DETACH DELETE s //'}) WHERE (r._interCluster <> true) OR (r._interCluster IS NULL) WITH s as source, d as dest, TYPE(r) as edge, COLLECT (r) AS edges WHERE size(edges) >1 UNWIND edges[1..] AS dupedges DELETE dupedges"].
Proof. apply returned_run. by vm_compute. Qed.



(** The third testable property of the specification, with deletions that
    fail: ["X"] is stored three times; one deletion is sent for it, its
    failure is logged, ["X"] is not in the baseline and comes back through
    the adds, ["Y"] is left alone, and the cycle returns the error of the
    last failed stage. *)
Example tripled_uid_is_purged :
  ∃ l w',
    resyncClusterLocals (scriptedStore (failingDeletions "c1" tripledNodes []))
      demoDeps sortedOrder "c1" [resource "X" []; resource "Y" []] [] world0 =
    (Returned l, w')
    ∧ queriesOf (w_calls w') =
      ["MATCH (n {cluster: 'c1'}) RETURN n";
       "MATCH (n {_uid:'X'}) DELETE n";
       existingEdgesQuery "c1"; deleteDuplicateEdgesQuery "c1"]
    ∧ dom (l_baseline l) = {["Y"]}
    ∧ l_resourcesToAdd l = [resource "X" []]
    ∧ l_resourcesToUpdate l = []
    ∧ l_deleteUIDS l = []
    ∧ w_logs w' =
      [WarnDuplicateRecords "c1" 1; ErrDeletingDuplicates "X" "timeout";
       WarnDeletingDuplicateEdges "c1" "timeout"]
    ∧ l_err l = Some "timeout".
Proof. apply returned_run. vm_compute. by split_and!. Qed.

(** C5, as stated, fails on a snapshot that repeats a UID: the first
    resource of ["X"] is an update, which removes ["X"] from the map, and the
    second is an add, so ["X"] is counted in both sets. *)
Lemma repeated_uid_is_updated_and_added :
  ∃ l w',
    repeatedUidRun = (Returned l, w')
    ∧ dom (l_baseline l) = {["X"]}
    ∧ UID <$> l_resourcesToUpdate l = ["X"]
    ∧ UID <$> l_resourcesToAdd l = ["X"].
Proof. apply returned_run. vm_compute. by split_and!. Qed.


Lemma distinct_uids_are_partitioned_witness :
  is_Some (fst (fst (Query (scriptedStore (demoHealthy "c1" mixedNodes []))
                       (SanitizeQuery demoDeps existingResourcesFormat "c1")
                       (w_store world0))))
  ∧ conventional (scriptedStore (demoHealthy "c1" mixedNodes []))
  ∧ NoDup (UID <$> mixedSnapshot)
  ∧ ∃ l w',
      resyncClusterLocals (scriptedStore (demoHealthy "c1" mixedNodes []))
        demoDeps sortedOrder "c1" mixedSnapshot [] world0 = (Returned l, w')
      ∧ (∀ u, u ∈ l_deleteUIDS l ↔
              u ∈ dom (l_baseline l) ∧ u ∉ UID <$> mixedSnapshot)
      ∧ NoDup ((UID <$> (l_resourcesToAdd l ++ l_resourcesToUpdate l))
               ++ l_deleteUIDS l).
Proof.
  assert (NoDup (UID <$> mixedSnapshot)) as Hnd.
  { compute_done. }
  split_and!; [apply demoHealthy_answers | apply demoHealthy_conventional
               | done |].
  destruct (distinct_uids_are_partitioned
              (scriptedStore (demoHealthy "c1" mixedNodes [])) demoDeps
              sortedOrder "c1" mixedSnapshot [] world0
              (demoHealthy_answers "c1" mixedNodes [])
              (demoHealthy_conventional "c1" mixedNodes []) Hnd)
    as (l & w' & Hrun & _ & _ & _ & Hdel & Hno).
  by exists l, w'.
Defined.

(** The second testable property of the specification on that snapshot. *)
Example mixed_snapshot_is_partitioned :
  ∃ l w',
    resyncClusterLocals (scriptedStore (demoHealthy "c1" mixedNodes []))
      demoDeps sortedOrder "c1" mixedSnapshot [] world0 = (Returned l, w')
    ∧ UID <$> l_resourcesToAdd l = ["N"]
    ∧ UID <$> l_resourcesToUpdate l = ["U"]
    ∧ l_deleteUIDS l = ["D"].
Proof. apply returned_run. vm_compute. by split_and!. Qed.



(** The fourth testable property of the specification: ["P"] changed its
    status from Ready to NotReady and is an update; ["Q"] has the properties
    of its stored copy and is a no-op. *)
Example status_change_is_an_update :
  ∃ l w',
    statusRun = (Returned l, w')
    ∧ l_resourcesToUpdate l = [resource "P" [("status", VString "NotReady")]]
    ∧ l_resourcesToAdd l = []
    ∧ l_deleteUIDS l = [].
Proof. apply returned_run. vm_compute. by split_and!. Qed.


(** The fifth and sixth testable properties of the specification. *)
Example edge_add_example :
  ∃ l w',
    edgeAddRun = (Returned l, w')
    ∧ l_edgesToAdd l = [AC] ∧ l_edgesToDelete l = [].
Proof. apply returned_run. vm_compute. by split_and!. Qed.

Example edge_delete_example :
  ∃ l w',
    edgeDeleteRun = (Returned l, w')
    ∧ l_edgesToAdd l = [] ∧ l_edgesToDelete l = [AC].
Proof. apply returned_run. vm_compute. by split_and!. Qed.

(** The key is the formatted string, so two edges whose fields differ can
    share it. *)
Example getEdgeUID_collision :
  getEdgeUID "a-b" "c" "d" = getEdgeUID "a" "b-c" "d"
  ∧ mkEdge "a-b" "c" "d" ≠ mkEdge "a" "b-c" "d".
Proof. split; [reflexivity | discriminate]. Qed.

(** C1, as stated, fails: the baseline holds the key of [AB] and the payload
    carries [AB] twice; the error is logged, the first occurrence consumes
    the baseline entry and the second is appended to the edges to add. *)
Lemma repeated_baseline_edge_is_added :
  ∃ l w',
    repeatedEdgeRun = (Returned l, w')
    ∧ l_edgeBaseline l !! edgeKey AB = Some AB
    ∧ w_logs w' = [ErrDuplicateEdgesInPayload "c1"]
    ∧ l_edgesToAdd l = [AB]
    ∧ l_edgesToDelete l = [].
Proof. apply returned_run. vm_compute. by split_and!. Qed.

Lemma repeated_key_is_decided_per_occurrence_witness :
  is_Some (fst (fst (Query (scriptedStore
                              (demoHealthy "c1" [] [row "A" "owns" "B"]))
                       (SanitizeQuery demoDeps existingResourcesFormat "c1")
                       (w_store world0))))
  ∧ conventional (scriptedStore (demoHealthy "c1" [] [row "A" "owns" "B"]))
  ∧ (2 ≤ length (filter (fun e => edgeKey e = edgeKey AB) [AB; AB]))%nat
  ∧ ∃ l w',
      repeatedEdgeRun = (Returned l, w')
      ∧ (size (l_verifyEdges l) < length [AB; AB])%nat
      ∧ ErrDuplicateEdgesInPayload "c1" ∈ w_logs w'
      ∧ filter (fun e => edgeKey e = edgeKey AB) (l_edgesToAdd l) =
        match l_edgeBaseline l !! edgeKey AB with
        | Some _ => drop 1 (filter (fun e => edgeKey e = edgeKey AB) [AB; AB])
        | None => filter (fun e => edgeKey e = edgeKey AB) [AB; AB]
        end.
Proof.
  assert (2 ≤ length (filter (fun e => edgeKey e = edgeKey AB) [AB; AB]))%nat
    as Hrep by (vm_compute; lia).
  split_and!; [apply demoHealthy_answers | apply demoHealthy_conventional
               | done |].
  apply (repeated_key_is_decided_per_occurrence
           (scriptedStore (demoHealthy "c1" [] [row "A" "owns" "B"]))
           demoDeps sortedOrder "c1" [] [AB; AB] world0 (edgeKey AB)
           (demoHealthy_answers "c1" [] [row "A" "owns" "B"])
           (demoHealthy_conventional "c1" [] [row "A" "owns" "B"]) Hrep).
Defined.


(** * Further properties of the cycle *)

Section Beyond.
Context {S : Type} (store : Store S) (deps : Deps) (ord : MapOrder).
Implicit Types (w : World S) (l : Locals).

Lemma nil_result_panics_early (clusterName : string)
    (resources : list Resource) (edges : list Edge) w :
  fst (fst (Query store (SanitizeQuery deps existingResourcesFormat clusterName)
              (w_store w))) = None →
  ∃ w',
    resyncCluster store deps ord clusterName resources edges w = (Panicked, w')
    ∧ filter (fun c => isMutation c) (w_calls w') =
      filter (fun c => isMutation c) (w_calls w).
Proof.
  intros HQ.
  destruct (Query store (SanitizeQuery deps existingResourcesFormat clusterName)
              (w_store w)) as [[result error0] s1] eqn:HQ1.
  cbn in HQ. subst result. eexists. split.
  - unfold resyncCluster. apply bind_panicked. unfold resyncClusterLocals.
    erewrite bind_returned by apply call_run. rewrite HQ1. cbn [fst snd].
    erewrite bind_returned by apply whenSome_glog_run.
    apply bind_panicked. reflexivity.
  - cbn [w_calls]. rewrite filter_app, filter_cons_False by (by intros []).
    by rewrite filter_nil, app_nil_r.
Qed.

(** X1: over a store that follows the client's convention, the function
    returns exactly when the first query hands back a result; when it does
    not, the function panics before it has called any chunked operation. *)
Theorem returns_iff_first_result (clusterName : string)
    (resources : list Resource) (edges : list Edge) w :
  conventional store →
  ((∃ r w', resyncCluster store deps ord clusterName resources edges w =
            (Returned r, w'))
   ↔ is_Some (fst (fst (Query store
                          (SanitizeQuery deps existingResourcesFormat clusterName)
                          (w_store w)))))
  ∧ (fst (fst (Query store
                 (SanitizeQuery deps existingResourcesFormat clusterName)
                 (w_store w))) = None →
     ∃ w', resyncCluster store deps ord clusterName resources edges w =
           (Panicked, w')
           ∧ filter (fun c => isMutation c) (w_calls w') =
             filter (fun c => isMutation c) (w_calls w)).
Proof.
  intros Hconv. split; [split|].
  - intros (r & w' & Hrun).
    destruct (fst (fst (Query store _ (w_store w)))) as [res|] eqn:HQ;
      [by eexists|].
    destruct (nil_result_panics_early clusterName resources edges w HQ)
      as (w'' & Hp & _).
    rewrite Hp in Hrun. discriminate.
  - intros Hres.
    destruct (resyncClusterLocals_run store deps ord clusterName resources
                edges w Hres Hconv)
      as (l & w' & answers & n1 & n2 & n3 & n4 & Hrun & Hc).
    exists (l_stats l, l_err l), w'. by apply resyncCluster_of_locals.
  - apply nil_result_panics_early.
Qed.

Lemma addsOf_sublist (existing : gmap string Node) (rs : list Resource) :
  addsOf existing rs `sublist_of` rs.
Proof.
  revert existing. induction rs as [|r rs IH]; intros existing; [done|].
  cbn. destruct (existing !! UID r).
  - apply sublist_cons, IH.
  - apply sublist_skip, IH.
Qed.

Lemma updatesOf_sublist (existing : gmap string Node) (rs : list Resource) :
  updatesOf deps ord existing rs `sublist_of` rs.
Proof.
  revert existing. induction rs as [|r rs IH]; intros existing; [done|].
  cbn. destruct (existing !! UID r) as [n|].
  - destruct (needsUpdate deps ord r n); cbn.
    + apply sublist_skip, IH.
    + apply sublist_cons, IH.
  - apply sublist_cons, IH.
Qed.

Lemma edgeAddsOf_sublist (existing : gmap string Edge) (es : list Edge) :
  edgeAddsOf existing es `sublist_of` es.
Proof.
  revert existing. induction es as [|e es IH]; intros existing; [done|].
  cbn. destruct (existing !! edgeKey e).
  - apply sublist_cons, IH.
  - apply sublist_skip, IH.
Qed.

(** X2: the cycle writes nothing that the snapshot does not carry and
    deletes nothing that it carries.  The resources to add, the resources to
    update and the edges to add are sub-sequences of the payload, in its
    order; every UID to delete is a UID of the baseline that no incoming
    resource has, and every edge to delete is an entry of the edge baseline
    whose key no incoming edge has. *)
Theorem writes_stay_within_the_snapshot (clusterName : string)
    (resources : list Resource) (edges : list Edge) w :
  is_Some (fst (fst (Query store
                       (SanitizeQuery deps existingResourcesFormat clusterName)
                       (w_store w)))) →
  conventional store →
  ∃ l w',
    resyncClusterLocals store deps ord clusterName resources edges w =
    (Returned l, w')
    ∧ l_resourcesToAdd l `sublist_of` resources
    ∧ l_resourcesToUpdate l `sublist_of` resources
    ∧ l_edgesToAdd l `sublist_of` edges
    ∧ (∀ u, u ∈ l_deleteUIDS l →
            is_Some (l_baseline l !! u) ∧ u ∉ UID <$> resources)
    ∧ (∀ e, e ∈ l_edgesToDelete l →
            l_edgeBaseline l !! edgeKey e = Some e
            ∧ edgeKey e ∉ edgeKey <$> edges).
Proof.
  intros Hres Hconv.
  destruct (resyncClusterLocals_run store deps ord clusterName resources edges
              w Hres Hconv) as (l & w' & answers & n1 & n2 & n3 & n4 & Hrun & Hc).
  destruct (cycle_resource_lists _ _ _ _ _ _ _ _ _ _ _ _ _ _ Hc)
    as (Hex & Hadd & Hupd).
  destruct (cycle_edge_lists _ _ _ _ _ _ _ _ _ _ _ _ _ _ Hc)
    as (_ & Heex & Headd & Hkeys).
  exists l, w'. split_and!; [done | | | | |].
  - rewrite Hadd. apply addsOf_sublist.
  - rewrite Hupd. apply updatesOf_sublist.
  - rewrite Headd. apply edgeAddsOf_sublist.
  - intros u. rewrite (cy_deleteUIDS _ _ _ _ _ _ _ _ _ _ _ _ _ _ Hc).
    rewrite elem_of_mapRange_keys, Hex. intros [n Hn].
    apply map_lookup_filter_Some in Hn as [Hn Hnot]. split; [by eexists|done].
  - intros e. rewrite (cy_edgesToDelete _ _ _ _ _ _ _ _ _ _ _ _ _ _ Hc).
    unfold collectEdgesToDelete. rewrite (mapRange_perm ord), Heex.
    intros ([k e'] & -> & Hin)%list_elem_of_fmap.
    apply elem_of_map_to_list, map_lookup_filter_Some in Hin as [Hk Hnot].
    cbn in *. rewrite (Hkeys _ _ Hk). done.
Qed.

Lemma addsOf_empty (rs : list Resource) : addsOf ∅ rs = rs.
Proof.
  induction rs as [|r rs IH]; [done|]. cbn. rewrite lookup_empty. by rewrite IH.
Qed.

Lemma updatesOf_empty (rs : list Resource) : updatesOf deps ord ∅ rs = [].
Proof. induction rs as [|r rs IH]; [done|]. cbn. by rewrite lookup_empty. Qed.


Lemma occurrences_unusable (rs : list (list Value)) (u : string) :
  (∀ rec, rec ∈ rs → recordNode rec = None) → occurrences u rs = 0%nat.
Proof.
  intros Hnone. unfold occurrences. induction rs as [|r rs IH]; [done|].
  rewrite filter_cons_False.
  - apply IH. intros rec Hin. apply Hnone. by apply elem_of_cons; right.
  - rewrite (Hnone r) by (apply elem_of_cons; by left). done.
Qed.

Lemma cycle_baseline_lookup (clusterName : string) (resources : list Resource)
    (edges : list Edge) w l w' answers n1 n2 n3 n4 (res : QueryResult)
    (u : string) :
  Cycle store deps ord clusterName resources edges w l w' answers n1 n2 n3 n4 →
  l_result l = Some res →
  (is_Some (l_baseline l !! u) ↔ occurrences u (records res) = 1%nat)
  ∧ (∀ n : Node, l_baseline l !! u = Some n → goIndex n "_uid" = VString u).
Proof.
  intros Hc Hl.
  pose proof (cy_scanned _ _ _ _ _ _ _ _ _ _ _ _ _ _ Hc) as Hscan.
  rewrite Hl in Hscan.
  change (scanRecords (records res) =
          (l_scanned l, l_duplicatedResources l)) in Hscan.
  destruct (scanRecords_inv (records res)) as (Hone & Hdup & Huid).
  rewrite Hscan in Hone, Hdup, Huid. cbn [fst snd] in Hone, Hdup, Huid.
  rewrite (cy_baseline _ _ _ _ _ _ _ _ _ _ _ _ _ _ Hc).
  rewrite (lookup_consumed fst). split.
  - case_decide as Hin.
    + apply elem_of_mapRange_keys, Hdup in Hin. split; [by intros [? [=]] | lia].
    + rewrite elem_of_mapRange_keys, Hdup in Hin. rewrite Hone. lia.
  - intros n. case_decide; [done|]. apply Huid.
Qed.

(** X3: when the first query hands back no usable record (no record at all,
    or none that is a node with a string [_uid]), the baseline is empty: the
    whole snapshot is inserted as it came, repeated UIDs included, nothing is
    updated, nothing is deleted, and no duplicate deletion is sent. *)
Theorem empty_store_inserts_the_snapshot (clusterName : string)
    (resources : list Resource) (edges : list Edge) w (res : QueryResult) :
  fst (fst (Query store
              (SanitizeQuery deps existingResourcesFormat clusterName)
              (w_store w))) = Some res →
  conventional store →
  (∀ rec, rec ∈ records res → recordNode rec = None) →
  ∃ l w',
    resyncClusterLocals store deps ord clusterName resources edges w =
    (Returned l, w')
    ∧ l_baseline l = ∅
    ∧ l_resourcesToAdd l = resources
    ∧ l_resourcesToUpdate l = []
    ∧ l_deleteUIDS l = []
    ∧ queriesOf (w_calls w') =
      queriesOf (w_calls w)
      ++ [SanitizeQuery deps existingResourcesFormat clusterName;
          existingEdgesQuery clusterName;
          deleteDuplicateEdgesQuery clusterName].
Proof.
  intros Hres Hconv Hnone.
  destruct (resyncClusterLocals_run store deps ord clusterName resources edges
              w (ltac:(by eexists)) Hconv)
    as (l & w' & answers & n1 & n2 & n3 & n4 & Hrun & Hc).
  assert (l_result l = Some res) as Hl.
  { rewrite <- Hres. by rewrite (cy_query _ _ _ _ _ _ _ _ _ _ _ _ _ _ Hc). }
  assert (l_baseline l = ∅) as Hb.
  { apply map_empty. intros u. apply eq_None_not_Some.
    rewrite (proj1 (cycle_baseline_lookup _ _ _ _ _ _ _ _ _ _ _ res u Hc Hl)).
    rewrite occurrences_unusable by done. lia. }
  assert (l_duplicatedResources l = ∅) as Hd.
  { pose proof (cy_scanned _ _ _ _ _ _ _ _ _ _ _ _ _ _ Hc) as Hscan.
    rewrite Hl in Hscan.
    change (scanRecords (records res) =
            (l_scanned l, l_duplicatedResources l)) in Hscan.
    destruct (scanRecords_inv (records res)) as (_ & Hdup & _).
    rewrite Hscan in Hdup. cbn [snd] in Hdup.
    apply map_empty. intros u. apply eq_None_not_Some. rewrite Hdup.
    rewrite occurrences_unusable by done. lia. }
  destruct (cycle_resource_lists _ _ _ _ _ _ _ _ _ _ _ _ _ _ Hc)
    as (Hex & Hadd & Hupd).
  rewrite Hb in Hex, Hadd, Hupd.
  exists l, w'. split_and!; [done | done | | | |].
  - by rewrite Hadd, addsOf_empty.
  - by rewrite Hupd, updatesOf_empty.
  - rewrite (cy_deleteUIDS _ _ _ _ _ _ _ _ _ _ _ _ _ _ Hc), Hex.
    rewrite map_filter_empty, mapRange_empty; [done | by rewrite map_size_empty].
  - rewrite (cycle_queries _ _ _ _ _ _ _ _ _ _ _ _ _ _ Hc), Hd.
    rewrite mapRange_empty by (by rewrite map_size_empty). done.
Qed.




Lemma scanRecords_from_records (rs : list (list Value)) (u : string) (n : Node) :
  fst (scanRecords rs) !! u = Some n →
  ∃ rec, rec ∈ rs ∧ recordNode rec = Some (u, n).
Proof.
  unfold scanRecords. revert u n.
  induction rs as [|r rs IH] using rev_ind; intros u n.
  - cbn. by rewrite lookup_empty.
  - rewrite foldl_app. cbn [foldl].
    destruct (foldl scanRecord (∅, ∅) rs) as [ex dup]. cbn [fst] in IH.
    rewrite scanRecord_eq.
    assert (ex !! u = Some n → ∃ rec, rec ∈ rs ++ [r]
                                      ∧ recordNode rec = Some (u, n)) as Hold.
    { intros Hu. destruct (IH u n Hu) as (rec & Hin & Hrec).
      exists rec. split; [|done]. apply elem_of_app. by left. }
    destruct (recordNode r) as [[u0 n0]|] eqn:Hr; [|done].
    destruct (ex !! u0) eqn:Hex; cbn [fst]; [done|].
    rewrite lookup_insert. case_decide as Hu; [|done].
    intros [= <-]. subst u0. exists r. split; [|done].
    apply elem_of_app. right. apply elem_of_cons. by left.
Qed.

(** X6: the baseline that the resources are compared with holds exactly the
    UIDs that the first query returned once: a UID returned twice or more is
    not in it, a record that is no node with a string [_uid] contributes
    nothing, and the node kept for a UID is the node of a returned record and
    carries that UID. *)
Theorem baseline_is_the_uids_stored_once (clusterName : string)
    (resources : list Resource) (edges : list Edge) w (res : QueryResult) :
  fst (fst (Query store
              (SanitizeQuery deps existingResourcesFormat clusterName)
              (w_store w))) = Some res →
  conventional store →
  ∃ l w',
    resyncClusterLocals store deps ord clusterName resources edges w =
    (Returned l, w')
    ∧ (∀ u, is_Some (l_baseline l !! u) ↔ occurrences u (records res) = 1%nat)
    ∧ (∀ u (n : Node),
         l_baseline l !! u = Some n →
         goIndex n "_uid" = VString u
         ∧ ∃ rec, rec ∈ records res ∧ recordNode rec = Some (u, n)).
Proof.
  intros Hres Hconv.
  destruct (resyncClusterLocals_run store deps ord clusterName resources edges
              w (ltac:(by eexists)) Hconv)
    as (l & w' & answers & n1 & n2 & n3 & n4 & Hrun & Hc).
  assert (l_result l = Some res) as Hl.
  { rewrite <- Hres. by rewrite (cy_query _ _ _ _ _ _ _ _ _ _ _ _ _ _ Hc). }
  exists l, w'. split_and!; [done | |].
  - intros u. apply (cycle_baseline_lookup _ _ _ _ _ _ _ _ _ _ _ res u Hc Hl).
  - intros u n Hn. split.
    + by apply (cycle_baseline_lookup _ _ _ _ _ _ _ _ _ _ _ res u Hc Hl).
    + pose proof (cy_scanned _ _ _ _ _ _ _ _ _ _ _ _ _ _ Hc) as Hscan.
      rewrite Hl in Hscan.
      change (scanRecords (records res) =
              (l_scanned l, l_duplicatedResources l)) in Hscan.
      apply scanRecords_from_records. rewrite Hscan. cbn [fst].
      rewrite (cy_baseline _ _ _ _ _ _ _ _ _ _ _ _ _ _ Hc) in Hn.
      rewrite (lookup_consumed fst) in Hn. by case_decide.
Qed.

Lemma edge_conservation (existing : gmap string Edge) (es : list Edge) :
  (length (edgeAddsOf existing es) + size existing =
   length es + size (foldl (fun m e => delete (edgeKey e) m) existing es))%nat.
Proof.
  revert existing. induction es as [|e es IH]; intros existing; [cbn; lia|].
  cbn [edgeAddsOf foldl length].
  destruct (existing !! edgeKey e) as [e'|] eqn:He.
  - specialize (IH (delete (edgeKey e) existing)).
    rewrite map_size_delete_Some in IH by (by eexists).
    assert (size existing ≠ 0)%nat.
    { intros Hz. apply map_size_empty_iff in Hz. subst existing.
      by rewrite lookup_empty in He. }
    lia.
  - rewrite (delete_id _ _ He). specialize (IH existing). cbn [length]. lia.
Qed.

Lemma filter_logLine_dupLogs (line : nat) (uids : list string)
    (answers : list QueryReturn) :
  line ≠ 68%nat →
  filter (fun e => logLine e = line) (dupLogs uids answers) = [].
Proof.
  intros Hline. revert answers.
  induction uids as [|u uids IH]; intros [|a answers]; try done.
  unfold dupLogs. cbn [zip_with concat]. rewrite filter_app.
  fold (dupLogs uids answers). rewrite IH, app_nil_r.
  destruct (snd a); [|done]. by rewrite filter_cons_False.
Qed.

Lemma filter_logLine_warningsOf (line : nat) (existing : gmap string Node)
    (rs : list Resource) :
  line ≠ 89%nat →
  filter (fun e => logLine e = line) (warningsOf deps existing rs) = [].
Proof.
  intros Hline. revert existing.
  induction rs as [|r rs IH]; intros existing; [done|].
  cbn [warningsOf]. destruct (existing !! UID r); [|apply IH].
  rewrite filter_app, IH, app_nil_r. unfold encodeWarning.
  destruct (EncodeProperties deps r) as [enc [e|]]; [|done].
  by rewrite filter_cons_False.
Qed.

(** The lines that one call site logged in a run, for a call site outside
    the two loops. *)
Lemma cycle_logs_of_line (line : nat) (clusterName : string)
    (resources : list Resource) (edges : list Edge)
    w l w' answers n1 n2 n3 n4 :
  Cycle store deps ord clusterName resources edges w l w' answers n1 n2 n3 n4 →
  line ≠ 68%nat → line ≠ 89%nat →
  filter (fun e => logLine e = line) (w_logs w') =
  filter (fun e => logLine e = line) (w_logs w)
  ++ (if bool_decide (line = 36%nat ∧ is_Some (l_error l))
      then [ErrExistingResources clusterName] else [])
  ++ (if bool_decide (line = 63%nat ∧ (0 < size (l_duplicatedResources l))%nat)
      then [WarnDuplicateRecords clusterName (size (l_duplicatedResources l))]
      else [])
  ++ match l_edgesError l with
     | Some e => if bool_decide (line = 165%nat)
                 then [WarnExistingEdges clusterName e] else []
     | None => []
     end
  ++ match l_delEdgesError l with
     | Some e => if bool_decide (line = 196%nat)
                 then [WarnDeletingDuplicateEdges clusterName e] else []
     | None => []
     end
  ++ (if bool_decide (line = 220%nat
                      ∧ size (l_verifyEdges l) ≠ length edges)
      then [ErrDuplicateEdgesInPayload clusterName] else [])
  ++ (if bool_decide
           (line = 232%nat
            ∧ (Z.of_nat (size (l_edgeBaseline l))
               + Z.of_nat (length (l_edgesToAdd l))
               - Z.of_nat (length (l_edgesToDelete l)))%Z
              ≠ Z.of_nat (length edges))
      then [WarnExpectedEdges clusterName
              (Z.of_nat (size (l_edgeBaseline l))
               + Z.of_nat (length (l_edgesToAdd l))
               - Z.of_nat (length (l_edgesToDelete l)))%Z
              (Z.of_nat (length edges))]
      else []).
Proof.
  intros Hc H68 H89. rewrite (cy_logs _ _ _ _ _ _ _ _ _ _ _ _ _ _ Hc).
  rewrite !filter_app, filter_logLine_dupLogs, filter_logLine_warningsOf
    by done.
  cbn [app]. f_equal.
  assert (∀ (P : Prop) `{!Decision P} (e : LogEntry),
            filter (fun e => logLine e = line)
              (if bool_decide P then [e] else []) =
            if bool_decide (line = logLine e ∧ P) then [e] else []) as Hif.
  { intros P ? e. case_bool_decide as HP.
    - destruct (decide (logLine e = line)) as [He|He].
      + rewrite filter_cons_True by done. by rewrite bool_decide_eq_true_2.
      + rewrite filter_cons_False by done.
        rewrite bool_decide_eq_false_2; [done|]. intros [? _]. by apply He.
    - rewrite bool_decide_eq_false_2; [done|]. by intros [_ ?]. }
  assert (∀ (e : LogEntry),
            filter (fun e => logLine e = line) [e] =
            if bool_decide (line = logLine e) then [e] else []) as Hone.
  { intros e. destruct (decide (logLine e = line)) as [He|He].
    - rewrite filter_cons_True by done. by rewrite bool_decide_eq_true_2.
    - rewrite filter_cons_False by done.
      rewrite bool_decide_eq_false_2; [done|]. intros ?. by apply He. }
  f_equal; [|f_equal; [|f_equal; [|f_equal; [|f_equal]]]].
  - destruct (l_error l) as [e|].
    + rewrite Hone. cbn [logLine].
      rewrite (bool_decide_ext (line = 36%nat ∧ is_Some (Some e))
                 (line = 36%nat)); [done|].
      split; [by intros [] | intros ->; by split; [|eexists]].
    + rewrite filter_nil, bool_decide_eq_false_2; [done|].
      by intros [_ [? [=]]].
  - apply Hif.
  - destruct (l_edgesError l); [apply Hone | done].
  - destruct (l_delEdgesError l); [apply Hone | done].
  - apply Hif.
  - apply Hif.
Qed.

Lemma cycle_edgesToDelete_length (clusterName : string)
    (resources : list Resource) (edges : list Edge)
    w l w' answers n1 n2 n3 n4 :
  Cycle store deps ord clusterName resources edges w l w' answers n1 n2 n3 n4 →
  (length (l_edgesToAdd l) + size (l_edgeBaseline l) =
   length edges + length (l_edgesToDelete l))%nat.
Proof.
  intros Hc.
  pose proof (cy_edgeDiff _ _ _ _ _ _ _ _ _ _ _ _ _ _ Hc) as Hd.
  unfold diffEdges in Hd. rewrite diffEdges_fold in Hd. cbn in Hd.
  injection Hd as _ Hex Hadd.
  rewrite (cy_edgesToDelete _ _ _ _ _ _ _ _ _ _ _ _ _ _ Hc).
  unfold collectEdgesToDelete.
  rewrite length_fmap, (mapRange_perm ord), length_map_to_list.
  rewrite <- Hex, <- Hadd. apply edge_conservation.
Qed.

(** X7: the soft consistency check of lines 230-234 cannot fail: in every
    run, the size of the edge baseline plus the number of edges to add minus
    the number of edges to delete is the number of incoming edges, so the
    warning of line 232 is never logged. *)
Theorem expected_edges_warning_never_fires (clusterName : string)
    (resources : list Resource) (edges : list Edge) w :
  is_Some (fst (fst (Query store
                       (SanitizeQuery deps existingResourcesFormat clusterName)
                       (w_store w)))) →
  conventional store →
  ∃ l w',
    resyncClusterLocals store deps ord clusterName resources edges w =
    (Returned l, w')
    ∧ (Z.of_nat (size (l_edgeBaseline l)) + Z.of_nat (length (l_edgesToAdd l))
       - Z.of_nat (length (l_edgesToDelete l)))%Z = Z.of_nat (length edges)
    ∧ filter (fun e => logLine e = 232%nat) (w_logs w') =
      filter (fun e => logLine e = 232%nat) (w_logs w).
Proof.
  intros Hres Hconv.
  destruct (resyncClusterLocals_run store deps ord clusterName resources edges
              w Hres Hconv) as (l & w' & answers & n1 & n2 & n3 & n4 & Hrun & Hc).
  pose proof (cycle_edgesToDelete_length _ _ _ _ _ _ _ _ _ _ _ Hc) as Hlen.
  exists l, w'. split_and!; [done | lia |].
  rewrite (cycle_logs_of_line 232 _ _ _ _ _ _ _ _ _ _ _ Hc) by lia.
  destruct (l_edgesError l), (l_delEdgesError l);
    repeat case_bool_decide; rewrite ?app_nil_r; try done;
    exfalso; naive_solver lia.
Qed.

(** X8: the duplicate-payload error of line 220 is logged exactly when two
    incoming edges share an identity key, and then once. *)
Theorem duplicate_payload_error_iff_repeated_key (clusterName : string)
    (resources : list Resource) (edges : list Edge) w :
  is_Some (fst (fst (Query store
                       (SanitizeQuery deps existingResourcesFormat clusterName)
                       (w_store w)))) →
  conventional store →
  ∃ l w',
    resyncClusterLocals store deps ord clusterName resources edges w =
    (Returned l, w')
    ∧ filter (fun e => logLine e = 220%nat) (w_logs w') =
      filter (fun e => logLine e = 220%nat) (w_logs w)
      ++ (if bool_decide (NoDup (edgeKey <$> edges)) then []
          else [ErrDuplicateEdgesInPayload clusterName]).
Proof.
  intros Hres Hconv.
  destruct (resyncClusterLocals_run store deps ord clusterName resources edges
              w Hres Hconv) as (l & w' & answers & n1 & n2 & n3 & n4 & Hrun & Hc).
  destruct (cycle_edge_lists _ _ _ _ _ _ _ _ _ _ _ _ _ _ Hc) as (Hsize & _).
  pose proof (verify_size (l_edgeBaseline l) edges) as Hv.
  rewrite <- Hsize in Hv.
  exists l, w'. split; [done|].
  rewrite (cycle_logs_of_line 220 _ _ _ _ _ _ _ _ _ _ _ Hc) by lia.
  f_equal.
  destruct (l_edgesError l), (l_delEdgesError l);
    repeat case_bool_decide; rewrite ?app_nil_r; try done;
    exfalso; naive_solver lia.
Qed.

Lemma filter_none {A : Type} (P : A → Prop) `{!∀ x, Decision (P x)}
    (xs : list A) :
  (∀ x, x ∈ xs → ¬ P x) → filter P xs = [].
Proof.
  induction xs as [|x xs IH]; intros Hnone; [done|].
  rewrite filter_cons_False by (apply Hnone, elem_of_cons; by left).
  apply IH. intros y Hy. apply Hnone, elem_of_cons. by right.
Qed.

(** X9: a snapshot that matches the store changes nothing.  When the
    incoming UIDs are pairwise distinct and are those of the baseline, and no
    incoming resource differs from its stored node, there is nothing to add,
    update or delete; likewise for edges whose keys are pairwise distinct and
    are those of the edge baseline.  The five chunked operations are called
    all the same, on empty lists. *)
Theorem matching_snapshot_changes_nothing (clusterName : string)
    (resources : list Resource) (edges : list Edge) w :
  is_Some (fst (fst (Query store
                       (SanitizeQuery deps existingResourcesFormat clusterName)
                       (w_store w)))) →
  conventional store →
  ∃ l w',
    resyncClusterLocals store deps ord clusterName resources edges w =
    (Returned l, w')
    ∧ (NoDup (UID <$> resources) →
       (∀ u, is_Some (l_baseline l !! u) ↔ u ∈ UID <$> resources) →
       (∀ r (n : Node), r ∈ resources → l_baseline l !! UID r = Some n →
                        needsUpdate deps ord r n = false) →
       l_resourcesToAdd l = [] ∧ l_resourcesToUpdate l = []
       ∧ l_deleteUIDS l = [])
    ∧ (NoDup (edgeKey <$> edges) →
       (∀ k, is_Some (l_edgeBaseline l !! k) ↔ k ∈ edgeKey <$> edges) →
       l_edgesToAdd l = [] ∧ l_edgesToDelete l = [])
    ∧ filter (fun c => isMutation c) (w_calls w') =
      filter (fun c => isMutation c) (w_calls w) ++ mutationCalls clusterName l.
Proof.
  intros Hres Hconv.
  destruct (resyncClusterLocals_run store deps ord clusterName resources edges
              w Hres Hconv) as (l & w' & answers & n1 & n2 & n3 & n4 & Hrun & Hc).
  destruct (cycle_resource_lists _ _ _ _ _ _ _ _ _ _ _ _ _ _ Hc)
    as (Hex & Hadd & Hupd).
  destruct (cycle_edge_lists _ _ _ _ _ _ _ _ _ _ _ _ _ _ Hc)
    as (_ & Heex & Headd & _).
  exists l, w'. split_and!; [done | | | by eapply cycle_mutations].
  - intros Hnd Hdom Hsame. split_and!.
    + rewrite Hadd, addsOf_filter by done. apply filter_none.
      intros r Hin Hr. apply Hr. apply elem_of_dom, Hdom.
      by apply list_elem_of_fmap_2.
    + rewrite Hupd, updatesOf_filter by done. apply filter_none.
      intros r Hin. unfold foundAndDiffers.
      destruct (l_baseline l !! UID r) as [n|] eqn:Hn; [|by intros []].
      rewrite (Hsame r n Hin Hn). by intros [].
    + rewrite (cy_deleteUIDS _ _ _ _ _ _ _ _ _ _ _ _ _ _ Hc), Hex.
      rewrite mapRange_empty; [done|]. apply map_size_empty_iff, map_empty.
      intros u. apply map_lookup_filter_None.
      destruct (l_baseline l !! u) as [n|] eqn:Hn; [right | by left].
      intros n' _ Hnot. apply Hnot. cbn. apply Hdom. by eexists.
  - intros Hnd Hdom. split.
    + rewrite Headd, edgeAddsOf_filter by done. apply filter_none.
      intros e Hin He. apply He. apply elem_of_dom, Hdom.
      by apply list_elem_of_fmap_2.
    + rewrite (cy_edgesToDelete _ _ _ _ _ _ _ _ _ _ _ _ _ _ Hc), Heex.
      unfold collectEdgesToDelete.
      rewrite mapRange_empty; [done|]. apply map_size_empty_iff, map_empty.
      intros k. apply map_lookup_filter_None.
      destruct (l_edgeBaseline l !! k) as [e|] eqn:Hk; [right | by left].
      intros e' _ Hnot. apply Hnot. cbn. apply Hdom. by eexists.
Qed.
End Beyond.


(** * Further properties of the helpers *)

Lemma ParseInt10_FormatInt10 (n : Z) : ParseInt10 (FormatInt10 n) = Some n.
Proof.
  unfold ParseInt10, FormatInt10. rewrite NilZero.isi.
  - cbn. by rewrite DecimalZ.of_to.
  - destruct n; cbn; try done. intros [= H].
    by apply Unsigned.to_uint_nonnil in H.
  - destruct n; cbn; try done. intros [= H].
    by apply Unsigned.to_uint_nonnil in H.
Qed.

Lemma FormatInt10_inj (a b : Z) : FormatInt10 a = FormatInt10 b → a = b.
Proof.
  intros Heq. pose proof (ParseInt10_FormatInt10 a) as Ha.
  rewrite Heq, ParseInt10_FormatInt10 in Ha. by injection Ha.
Qed.

(** X10: a changed integer is never missed.  When the encoding succeeds and
    some encoded property is the integer [a] while the stored value of that
    property normalizes to the decimal rendering of another integer [b]
    (it may be stored as [int64], [int] or string), the resource needs an
    update, whatever the order in which the properties are scanned and
    whatever the other properties are. *)
Theorem changed_integer_is_detected (deps : Deps) (ord : MapOrder)
    (r : Resource) (n : Node) (enc : gmap string Value) (key : string)
    (value : Value) (a b : Z) :
  EncodeProperties deps r = (enc, None) →
  enc !! key = Some value →
  value = VInt64 a ∨ value = VInt a →
  valueToString (goIndex n key) = FormatInt10 b →
  a ≠ b →
  needsUpdate deps ord r n = true.
Proof.
  intros Henc Hkey Hval Hstored Hne. apply needsUpdate_spec. right.
  rewrite Henc. exists key, value. split; [done|].
  apply propertyDiffers_spec.
  assert (valueToString value = FormatInt10 a) as Hv
    by (by destruct Hval as [-> | ->]).
  assert (valueToString value ≠ valueToString (goIndex n key)) as Hdiff.
  { rewrite Hv, Hstored. intros Heq. by apply Hne, FormatInt10_inj. }
  by destruct Hval as [-> | ->]; destruct (goIndex n key).
Qed.

Lemma chars_app (s1 s2 : string) :
  list_ascii_of_string (s1 ++ s2)%string =
  list_ascii_of_string s1 ++ list_ascii_of_string s2.
Proof.
  induction s1 as [|c s1 IH]; [done|].
  change (c :: list_ascii_of_string (s1 ++ s2)%string =
          c :: (list_ascii_of_string s1 ++ list_ascii_of_string s2)).
  by rewrite IH.
Qed.

Lemma chars_inj (s1 s2 : string) :
  list_ascii_of_string s1 = list_ascii_of_string s2 → s1 = s2.
Proof.
  intros Heq. rewrite <- (string_of_list_ascii_of_string s1).
  rewrite <- (string_of_list_ascii_of_string s2). by rewrite Heq.
Qed.

Lemma split_at_first {A : Type} (c : A) (l1 r1 l2 r2 : list A) :
  c ∉ l1 → c ∉ l2 → l1 ++ c :: r1 = l2 ++ c :: r2 → l1 = l2 ∧ r1 = r2.
Proof.
  revert l2. induction l1 as [|x l1 IH]; intros [|y l2] H1 H2 Heq; cbn in Heq.
  - by injection Heq.
  - injection Heq as <- _. destruct H2. apply elem_of_cons. by left.
  - injection Heq as -> _. destruct H1. apply elem_of_cons. by left.
  - injection Heq as -> Heq. destruct (IH l2) as [-> ->]; try done.
    + intros Hin. apply H1. apply elem_of_cons. by right.
    + intros Hin. apply H2. apply elem_of_cons. by right.
Qed.

Lemma split_at_last {A : Type} (c : A) (l1 r1 l2 r2 : list A) :
  c ∉ r1 → c ∉ r2 → l1 ++ c :: r1 = l2 ++ c :: r2 → l1 = l2 ∧ r1 = r2.
Proof.
  revert l2. induction l1 as [|x l1 IH]; intros [|y l2] H1 H2 Heq; cbn in Heq.
  - by injection Heq.
  - injection Heq as _ ->. destruct H1. apply elem_of_app. right.
    apply elem_of_cons. by left.
  - injection Heq as _ <-. destruct H2. apply elem_of_app. right.
    apply elem_of_cons. by left.
  - injection Heq as -> Heq. by destruct (IH l2 H1 H2 Heq) as [-> ->].
Qed.

(** X11: on edges whose source UID and edge type hold no [>] and whose edge
    type holds no [-], the identity key determines the edge: two such edges
    with the same key have the same source, type and destination (without
    the proviso two different edges can share a key). *)
Theorem edgeKey_determines_readable_edges (e1 e2 : Edge) :
  readableKey e1 → readableKey e2 → edgeKey e1 = edgeKey e2 → e1 = e2.
Proof.
  destruct e1 as [s1 t1 d1], e2 as [s2 t2 d2].
  unfold readableKey, hasChar, edgeKey, getEdgeUID. cbn [SourceUID EdgeType DestUID].
  intros (Hs1 & Ht1 & Hm1) (Hs2 & Ht2 & Hm2) Hkey.
  apply (f_equal list_ascii_of_string) in Hkey.
  rewrite !chars_app in Hkey. cbn [list_ascii_of_string app] in Hkey.
  assert (∀ s t : string,
            list_ascii_of_string s ++ "-"%char :: list_ascii_of_string t
            ++ "-"%char :: ">"%char :: list_ascii_of_string d1 =
            (list_ascii_of_string s ++ "-"%char :: list_ascii_of_string t
             ++ ["-"%char]) ++ ">"%char :: list_ascii_of_string d1) as Hshape1.
  { intros s t. rewrite <- !app_assoc. cbn. by rewrite <- !app_assoc. }
  assert (∀ s t : string,
            list_ascii_of_string s ++ "-"%char :: list_ascii_of_string t
            ++ "-"%char :: ">"%char :: list_ascii_of_string d2 =
            (list_ascii_of_string s ++ "-"%char :: list_ascii_of_string t
             ++ ["-"%char]) ++ ">"%char :: list_ascii_of_string d2) as Hshape2.
  { intros s t. rewrite <- !app_assoc. cbn. by rewrite <- !app_assoc. }
  rewrite Hshape1, Hshape2 in Hkey.
  apply split_at_first in Hkey as [Hpre Hd].
  - apply chars_inj in Hd. subst d2.
    assert (∀ s t : string,
              list_ascii_of_string s ++ "-"%char :: list_ascii_of_string t
              ++ ["-"%char] =
              (list_ascii_of_string s ++ "-"%char :: list_ascii_of_string t)
              ++ ["-"%char]) as Hsnoc.
    { intros s t. by rewrite <- !app_assoc. }
    rewrite !Hsnoc in Hpre. apply app_inj_tail in Hpre as [Hpre _].
    apply split_at_last in Hpre as [Hs Ht]; [|done..].
    apply chars_inj in Hs, Ht. by subst.
  - intros Hin. apply elem_of_app in Hin as [?|Hin]; [done|].
    apply elem_of_cons in Hin as [[=]|Hin].
    apply elem_of_app in Hin as [?|Hin]; [done|].
    apply elem_of_cons in Hin as [[=]|Hin]. by apply elem_of_nil in Hin.
  - intros Hin. apply elem_of_app in Hin as [?|Hin]; [done|].
    apply elem_of_cons in Hin as [[=]|Hin].
    apply elem_of_app in Hin as [?|Hin]; [done|].
    apply elem_of_cons in Hin as [[=]|Hin]. by apply elem_of_nil in Hin.
Qed.

(** X12: the two probes on a response whose header is not written yet.
    The liveness probe answers 200 and [OK] whatever the store does; the
    readiness probe answers 200 and [OK] exactly when the connection check
    reports a live connection and no error, and 503 with its message in the
    three other cases, a live connection reported together with an error
    included. *)
Theorem probes_answer (connAlive : bool) (connError : option error)
    (w : ResponseWriter) :
  rw_status w = None →
  LivenessProbe w = mkResponse (Some 200%nat) (rw_body w ++ "OK")
  ∧ (rw_status (ReadinessProbe (connAlive, connError) w) = Some 200%nat
     ↔ connAlive = true ∧ connError = None)
  ∧ ReadinessProbe (connAlive, connError) w =
    (if connAlive && bool_decide (connError = None)
     then mkResponse (Some 200%nat) (rw_body w ++ "OK")
     else mkResponse (Some 503%nat)
            (rw_body w ++ "Unable to reach Redis." ++ newline))%string.
Proof.
  intros Hfresh. destruct w as [status body]. cbn in Hfresh. subst status.
  unfold LivenessProbe, ReadinessProbe, httpError, Write, WriteHeader. cbn.
  destruct connAlive, connError as [e|]; cbn; split_and!; try done;
    split; try done; by intros [? ?].
Qed.


(** * Instances of the further properties *)

Lemma failingEdgeQuery_conventional (clusterName : string)
    (nodes : list (list Value)) :
  conventional (scriptedStore (failingEdgeQuery clusterName nodes)).
Proof.
  intros q s. unfold failingEdgeQuery. cbn [scriptedStore Query s_query fst snd].
  case_bool_decide; cbn [fst snd]; intros Herr; [by eexists | discriminate].
Qed.

Lemma failingEdgeQuery_answers (clusterName : string)
    (nodes : list (list Value)) :
  fst (fst (Query (scriptedStore (failingEdgeQuery clusterName nodes))
              (SanitizeQuery demoDeps existingResourcesFormat clusterName)
              (w_store world0))) = Some (mkQueryResult nodes 0).
Proof. cbn. by rewrite bool_decide_eq_true_2. Qed.

Lemma returns_iff_first_result_witness :
  conventional (scriptedStore failingQuery)
  ∧ ((∃ r w', resyncCluster (scriptedStore failingQuery) demoDeps sortedOrder
                "c1" [resource "N1" []] [] world0 = (Returned r, w'))
     ↔ is_Some (fst (fst (Query (scriptedStore failingQuery)
                            (SanitizeQuery demoDeps existingResourcesFormat "c1")
                            (w_store world0))))).
Proof.
  assert (conventional (scriptedStore failingQuery)) as Hconv.
  { intros q s Herr. cbn in Herr. discriminate. }
  split; [done|].
  exact (proj1 (returns_iff_first_result (scriptedStore failingQuery) demoDeps
                  sortedOrder "c1" [resource "N1" []] [] world0 Hconv)).
Defined.

Lemma writes_stay_within_the_snapshot_witness :
  is_Some (fst (fst (Query (scriptedStore (demoHealthy "c1" mixedNodes []))
                       (SanitizeQuery demoDeps existingResourcesFormat "c1")
                       (w_store world0))))
  ∧ conventional (scriptedStore (demoHealthy "c1" mixedNodes []))
  ∧ ∃ l w',
      resyncClusterLocals (scriptedStore (demoHealthy "c1" mixedNodes []))
        demoDeps sortedOrder "c1" mixedSnapshot [AB] world0 = (Returned l, w')
      ∧ l_resourcesToAdd l `sublist_of` mixedSnapshot
      ∧ l_resourcesToUpdate l `sublist_of` mixedSnapshot
      ∧ l_edgesToAdd l `sublist_of` [AB].
Proof.
  split_and!; [apply demoHealthy_answers | apply demoHealthy_conventional |].
  destruct (writes_stay_within_the_snapshot
              (scriptedStore (demoHealthy "c1" mixedNodes [])) demoDeps
              sortedOrder "c1" mixedSnapshot [AB] world0
              (demoHealthy_answers "c1" mixedNodes [])
              (demoHealthy_conventional "c1" mixedNodes []))
    as (l & w' & Hrun & Hadd & Hupd & Headd & _).
  exists l, w'. exact (conj Hrun (conj Hadd (conj Hupd Headd))).
Defined.

Lemma empty_store_inserts_the_snapshot_witness :
  fst (fst (Query (scriptedStore (failingEdgeQuery "c1" [[VString "stray"]]))
              (SanitizeQuery demoDeps existingResourcesFormat "c1")
              (w_store world0))) = Some (mkQueryResult [[VString "stray"]] 0)
  ∧ conventional (scriptedStore (failingEdgeQuery "c1" [[VString "stray"]]))
  ∧ (∀ rec, rec ∈ [[VString "stray"]] → recordNode rec = None)
  ∧ ∃ l w',
      resyncClusterLocals
        (scriptedStore (failingEdgeQuery "c1" [[VString "stray"]]))
        demoDeps sortedOrder "c1" [resource "N1" []; resource "N1" []] []
        world0 = (Returned l, w')
      ∧ l_baseline l = ∅
      ∧ l_resourcesToAdd l = [resource "N1" []; resource "N1" []]
      ∧ l_resourcesToUpdate l = []
      ∧ l_deleteUIDS l = [].
Proof.
  assert (∀ rec, rec ∈ [[VString "stray"]] → recordNode rec = None) as Hnone.
  { intros rec Hin. apply elem_of_cons in Hin as [->|Hin]; [done|].
    by apply elem_of_nil in Hin. }
  split_and!; [apply failingEdgeQuery_answers
               | apply failingEdgeQuery_conventional | done |].
  destruct (empty_store_inserts_the_snapshot
              (scriptedStore (failingEdgeQuery "c1" [[VString "stray"]]))
              demoDeps sortedOrder "c1" [resource "N1" []; resource "N1" []] []
              world0 (mkQueryResult [[VString "stray"]] 0)
              (failingEdgeQuery_answers "c1" [[VString "stray"]])
              (failingEdgeQuery_conventional "c1" [[VString "stray"]]) Hnone)
    as (l & w' & Hrun & Hb & Hadd & Hupd & Hdel & _).
  exists l, w'. exact (conj Hrun (conj Hb (conj Hadd (conj Hupd Hdel)))).
Defined.



(** In that run the query for the existing edges fails: the three incoming
    edges are inserted, the repeated one twice, and the error is returned. *)
Example failed_edge_query_example :
  ∃ l w',
    resyncClusterLocals (scriptedStore (failingEdgeQuery "c1" []))
      demoDeps sortedOrder "c1" [] [AB; AB; AC] world0 = (Returned l, w')
    ∧ l_edgesError l = Some "timeout"
    ∧ l_edgesToAdd l = [AB; AB; AC]
    ∧ l_edgesToDelete l = []
    ∧ l_err l = Some "timeout".
Proof. apply returned_run. vm_compute. by split_and!. Qed.

Lemma baseline_is_the_uids_stored_once_witness :
  fst (fst (Query (scriptedStore (failingEdgeQuery "c1" tripledNodes))
              (SanitizeQuery demoDeps existingResourcesFormat "c1")
              (w_store world0))) = Some (mkQueryResult tripledNodes 0)
  ∧ conventional (scriptedStore (failingEdgeQuery "c1" tripledNodes))
  ∧ ∃ l w',
      resyncClusterLocals (scriptedStore (failingEdgeQuery "c1" tripledNodes))
        demoDeps sortedOrder "c1" [] [] world0 = (Returned l, w')
      ∧ (∀ u, is_Some (l_baseline l !! u) ↔
              occurrences u tripledNodes = 1%nat).
Proof.
  split_and!; [apply failingEdgeQuery_answers
               | apply failingEdgeQuery_conventional |].
  destruct (baseline_is_the_uids_stored_once
              (scriptedStore (failingEdgeQuery "c1" tripledNodes)) demoDeps
              sortedOrder "c1" [] [] world0 (mkQueryResult tripledNodes 0)
              (failingEdgeQuery_answers "c1" tripledNodes)
              (failingEdgeQuery_conventional "c1" tripledNodes))
    as (l & w' & Hrun & Hiff & _).
  exists l, w'. exact (conj Hrun Hiff).
Defined.

Lemma expected_edges_warning_never_fires_witness :
  is_Some (fst (fst (Query (scriptedStore
                              (demoHealthy "c1" [] [row "A" "owns" "B"]))
                       (SanitizeQuery demoDeps existingResourcesFormat "c1")
                       (w_store world0))))
  ∧ conventional (scriptedStore (demoHealthy "c1" [] [row "A" "owns" "B"]))
  ∧ ∃ l w',
      resyncClusterLocals
        (scriptedStore (demoHealthy "c1" [] [row "A" "owns" "B"]))
        demoDeps sortedOrder "c1" [] [AB; AB] world0 = (Returned l, w')
      ∧ (Z.of_nat (size (l_edgeBaseline l))
         + Z.of_nat (length (l_edgesToAdd l))
         - Z.of_nat (length (l_edgesToDelete l)))%Z
        = Z.of_nat (length [AB; AB])
      ∧ filter (fun e => logLine e = 232%nat) (w_logs w') =
        filter (fun e => logLine e = 232%nat) (w_logs world0).
Proof.
  split_and!; [apply demoHealthy_answers | apply demoHealthy_conventional |].
  exact (expected_edges_warning_never_fires
           (scriptedStore (demoHealthy "c1" [] [row "A" "owns" "B"]))
           demoDeps sortedOrder "c1" [] [AB; AB] world0
           (demoHealthy_answers "c1" [] [row "A" "owns" "B"])
           (demoHealthy_conventional "c1" [] [row "A" "owns" "B"])).
Defined.

Lemma duplicate_payload_error_iff_repeated_key_witness :
  is_Some (fst (fst (Query (scriptedStore
                              (demoHealthy "c1" [] [row "A" "owns" "B"]))
                       (SanitizeQuery demoDeps existingResourcesFormat "c1")
                       (w_store world0))))
  ∧ conventional (scriptedStore (demoHealthy "c1" [] [row "A" "owns" "B"]))
  ∧ ∃ l w',
      resyncClusterLocals
        (scriptedStore (demoHealthy "c1" [] [row "A" "owns" "B"]))
        demoDeps sortedOrder "c1" [] [AB; AC] world0 = (Returned l, w')
      ∧ filter (fun e => logLine e = 220%nat) (w_logs w') =
        filter (fun e => logLine e = 220%nat) (w_logs world0)
        ++ (if bool_decide (NoDup (edgeKey <$> [AB; AC])) then []
            else [ErrDuplicateEdgesInPayload "c1"]).
Proof.
  split_and!; [apply demoHealthy_answers | apply demoHealthy_conventional |].
  exact (duplicate_payload_error_iff_repeated_key
           (scriptedStore (demoHealthy "c1" [] [row "A" "owns" "B"]))
           demoDeps sortedOrder "c1" [] [AB; AC] world0
           (demoHealthy_answers "c1" [] [row "A" "owns" "B"])
           (demoHealthy_conventional "c1" [] [row "A" "owns" "B"])).
Defined.

Lemma matching_snapshot_changes_nothing_witness :
  is_Some (fst (fst (Query (scriptedStore
                              (demoHealthy "c1" [] [row "A" "owns" "B"]))
                       (SanitizeQuery demoDeps existingResourcesFormat "c1")
                       (w_store world0))))
  ∧ conventional (scriptedStore (demoHealthy "c1" [] [row "A" "owns" "B"]))
  ∧ ∃ l w',
      resyncClusterLocals
        (scriptedStore (demoHealthy "c1" [] [row "A" "owns" "B"]))
        demoDeps sortedOrder "c1" [] [AB] world0 = (Returned l, w')
      ∧ (NoDup (edgeKey <$> [AB]) →
         (∀ k, is_Some (l_edgeBaseline l !! k) ↔ k ∈ edgeKey <$> [AB]) →
         l_edgesToAdd l = [] ∧ l_edgesToDelete l = [])
      ∧ filter (fun c => isMutation c) (w_calls w') =
        filter (fun c => isMutation c) (w_calls world0)
        ++ mutationCalls "c1" l.
Proof.
  split_and!; [apply demoHealthy_answers | apply demoHealthy_conventional |].
  destruct (matching_snapshot_changes_nothing
              (scriptedStore (demoHealthy "c1" [] [row "A" "owns" "B"]))
              demoDeps sortedOrder "c1" [] [AB] world0
              (demoHealthy_answers "c1" [] [row "A" "owns" "B"])
              (demoHealthy_conventional "c1" [] [row "A" "owns" "B"]))
    as (l & w' & Hrun & _ & Hedges & Hmut).
  exists l, w'. exact (conj Hrun (conj Hedges Hmut)).
Defined.

(** A second cycle on the state the first one aimed at: the stored nodes and
    rows are those of the snapshot, and every list handed to the chunked
    operations is empty. *)
Example matching_snapshot_example :
  ∃ l w',
    demoRun (demoHealthy "c1"
               [node "P" [("status", VString "Ready")]; node "Q" []]
               [row "A" "owns" "B"; row "A" "owns" "C"])
      "c1" [resource "Q" []; resource "P" [("status", VString "Ready")]]
      [AC; AB] = (Returned l, w')
    ∧ l_resourcesToAdd l = [] ∧ l_resourcesToUpdate l = []
    ∧ l_deleteUIDS l = [] ∧ l_edgesToAdd l = [] ∧ l_edgesToDelete l = []
    ∧ w_logs w' = [] ∧ l_err l = None.
Proof. apply returned_run. vm_compute. by split_and!. Qed.

Lemma changed_integer_is_detected_witness :
  EncodeProperties demoDeps scaled = (Properties scaled, None)
  ∧ Properties scaled !! "replicas" = Some (VInt64 3)
  ∧ (VInt64 3 = VInt64 3 ∨ VInt64 3 = VInt 3)
  ∧ valueToString (goIndex storedScaled "replicas") = FormatInt10 4
  ∧ 3%Z ≠ 4%Z
  ∧ needsUpdate demoDeps sortedOrder scaled storedScaled = true.
Proof.
  assert (Properties scaled !! "replicas" = Some (VInt64 3)) as Hkey
    by (by vm_compute).
  assert (valueToString (goIndex storedScaled "replicas") = FormatInt10 4)
    as Hstored by (by vm_compute).
  assert (3%Z ≠ 4%Z) as Hne by lia.
  split_and!; [done | done | by left | done | done |].
  exact (changed_integer_is_detected demoDeps sortedOrder scaled storedScaled
           (Properties scaled) "replicas" (VInt64 3) 3 4 eq_refl Hkey
           (or_introl eq_refl) Hstored Hne).
Defined.

Lemma edgeKey_determines_readable_edges_witness :
  readableKey AB ∧ readableKey (mkEdge "A" "owns" "B")
  ∧ edgeKey AB = edgeKey (mkEdge "A" "owns" "B")
  ∧ AB = mkEdge "A" "owns" "B".
Proof.
  assert (readableKey AB) as Hr.
  { unfold readableKey, hasChar. split_and!; compute_done. }
  split_and!; [done | done | done |].
  exact (edgeKey_determines_readable_edges AB (mkEdge "A" "owns" "B") Hr Hr
           eq_refl).
Defined.

Lemma probes_answer_witness :
  rw_status (mkResponse None "") = None
  ∧ LivenessProbe (mkResponse None "") = mkResponse (Some 200%nat) "OK"
  ∧ rw_status (ReadinessProbe (true, Some "EOF") (mkResponse None ""))
    ≠ Some 200%nat.
Proof.
  split; [done|].
  destruct (probes_answer true (Some "EOF") (mkResponse None "") eq_refl)
    as (Hlive & Hready & _).
  split; [exact Hlive|]. intros H200. by apply Hready in H200 as [_ [=]].
Defined.
